(** * Gym member management: a model of [GYM/gym.py]

    The script is a Streamlit page: every user action re-runs it from the
    top.  It keeps three CSV files (members, attendance, deleted members),
    a directory of reference photos, and calls two outside services, the
    face verifier and the mail transport.

    The model below follows the script block by block.  The files and the
    photo directory form the [world]; a handler is a function from the
    world to a new world, the messages shown on the page and either a value
    or the exception that stopped the run. *)

From Stdlib Require Import Ascii String QArith DecimalString DecimalPos DecimalZ.
From stdpp Require Import base option list strings gmap.

Local Open Scope string_scope.
Local Open Scope list_scope.
Local Open Scope Z_scope.

(** ** Python values *)

(** [str(n)] and [int(s)] on integers. *)
Definition str (n : Z) : string := NilZero.string_of_int (Z.to_int n).

Definition int (s : string) : option Z :=
  Z.of_int <$> NilZero.int_of_string s.

(** Truth value of a string: only the empty one is false. *)
Definition truthy (s : string) : bool :=
  match s with
  | EmptyString => false
  | String _ _ => true
  end.

(** [s.replace(' ', '_')]. *)
Fixpoint replace_spaces (s : string) : string :=
  match s with
  | EmptyString => EmptyString
  | String c rest =>
      String (if Ascii.eqb c " "%char then "_"%char else c) (replace_spaces rest)
  end.

Definition nl : string := String "010"%char EmptyString.

(** [c in s] for one character. *)
Fixpoint has_char (c : ascii) (s : string) : bool :=
  match s with
  | EmptyString => false
  | String x rest => Ascii.eqb x c || has_char c rest
  end.

(** A path up to its first ["/"], and what follows it if there is one. *)
Fixpoint split_at_slash (s : string) : string * option string :=
  match s with
  | EmptyString => (EmptyString, None)
  | String x rest =>
      if Ascii.eqb x "/"%char then (EmptyString, Some rest)
      else
        let '(head, tail) := split_at_slash rest in
        (String x head, tail)
  end.

(** Distances are finite doubles at run time.  Each of them is a rational
    number and [<] on them is the order of the rationals, so a distance is
    a [Q] here; a NaN distance is outside the model. *)
Definition float_lt (x y : Q) : bool :=
  match (x ?= y)%Q with
  | Lt => true
  | _ => false
  end.

(** ** [datetime.now()] and the two [strftime] formats of the script *)

Record datetime : Type := {
  year : nat; month : nat; day : nat;
  hour : nat; minute : nat; second : nat
}.

Definition digit (n : nat) : ascii :=
  Ascii.ascii_of_nat (48 + n `mod` 10).

Definition two_digits (n : nat) : string :=
  String (digit (n `div` 10)) (String (digit n) EmptyString).

Definition four_digits (n : nat) : string :=
  two_digits (n `div` 100) +:+ two_digits n.

(** ["%Y-%m-%d"] *)
Definition strftime_date (now : datetime) : string :=
  four_digits (year now) +:+ "-" +:+ two_digits (month now)
    +:+ "-" +:+ two_digits (day now).

(** ["%H:%M:%S"] *)
Definition strftime_time (now : datetime) : string :=
  two_digits (hour now) +:+ ":" +:+ two_digits (minute now)
    +:+ ":" +:+ two_digits (second now).

(** ** Table rows *)

Inductive Membership : Type := Monthly | Quarterly | Yearly.

Definition Membership_str (m : Membership) : string :=
  match m with
  | Monthly => "Monthly"
  | Quarterly => "Quarterly"
  | Yearly => "Yearly"
  end.

(** A row of [members.csv] and of [deleted_members.csv]. *)
Record Member : Type := {
  ID : Z;
  Name : string;
  Email : string;
  Mobile : string;
  Membership_ : Membership;
  Fee : Z;
  ImagePath : string
}.

(** A row of [attendance.csv].  [att_ID] is the cell as
    [attendance["ID"].astype(str)] shows it; [ExitTime] is [None] for a
    NaN cell, which is what an empty field of the file is read as. *)
Record Attendance : Type := {
  att_ID : string;
  att_Name : string;
  Date : string;
  EntryTime : string;
  ExitTime : option string;
  Status : string
}.

Global Instance Membership_eq_dec : EqDecision Membership.
Proof. solve_decision. Defined.

Global Instance Member_eq_dec : EqDecision Member.
Proof. solve_decision. Defined.

Global Instance Attendance_eq_dec : EqDecision Attendance.
Proof. solve_decision. Defined.

(** ** pandas frames and CSV files *)

Record DataFrame (R : Type) : Type := {
  columns : list string;
  rows : list R
}.
Arguments columns {R} _.
Arguments rows {R} _.

(** [pd.DataFrame()]: no columns, no rows. *)
Definition DataFrame_new {R} : DataFrame R :=
  {| columns := []; rows := [] |}.

(** [pd.DataFrame(columns=cols)] *)
Definition DataFrame_columns {R} (cols : list string) : DataFrame R :=
  {| columns := cols; rows := [] |}.

(** [df.empty]: true when either axis has length zero. *)
Definition empty {R} (df : DataFrame R) : bool :=
  bool_decide (rows df = []) || bool_decide (columns df = []).

(** [len(df)] *)
Definition len {R} (df : DataFrame R) : Z := Z.of_nat (length (rows df)).

(** [pd.concat([a, b], ignore_index=True)]: the columns of [a], then those
    of [b] that [a] lacks; the rows of [a], then those of [b]. *)
Definition concat {R} (a b : DataFrame R) : DataFrame R :=
  {| columns := columns a ++ filter (λ c, c ∉ columns a) (columns b);
     rows := rows a ++ rows b |}.

(** [df[mask]] for a row-wise mask. *)
Definition select {R} (mask : R → bool) (df : DataFrame R) : DataFrame R :=
  {| columns := columns df; rows := filter (λ r, mask r = true) (rows df) |}.

(** A CSV file on disk.  [no_header] is the file that [to_csv] writes for
    a frame without columns: one line break and nothing else. *)
Inductive csv_file (R : Type) : Type :=
| no_file
| no_header
| table (header : list string) (body : list R).
Arguments no_file {R}.
Arguments no_header {R}.
Arguments table {R} _ _.

Inductive exn : Type :=
| FileNotFoundError
| EmptyDataError
| IndexError
| ValueError
| NotADirectoryError.

(** [df.to_csv(f, index=False)].  The script builds a frame without
    columns only by [pd.DataFrame()], which has no rows either. *)
Definition to_csv {R} (df : DataFrame R) : csv_file R :=
  match columns df with
  | [] => no_header
  | _ :: _ => table (columns df) (rows df)
  end.

(** [pd.read_csv(f)]: a file without a column line has nothing to parse. *)
Definition read_csv {R} (f : csv_file R) : exn + DataFrame R :=
  match f with
  | no_file => inl FileNotFoundError
  | no_header => inl EmptyDataError
  | table [] _ => inl EmptyDataError
  | table header body => inr {| columns := header; rows := body |}
  end.

(** An empty field comes back from the file as NaN. *)
Definition na_empty (r : Attendance) : Attendance :=
  {| att_ID := att_ID r; att_Name := att_Name r; Date := Date r;
     EntryTime := EntryTime r;
     ExitTime := match ExitTime r with
                 | Some EmptyString => None
                 | t => t
                 end;
     Status := Status r |}.

Definition members_columns : list string :=
  ["ID"; "Name"; "Email"; "Mobile"; "Membership"; "Fee"; "ImagePath"].

Definition attendance_columns : list string :=
  ["ID"; "Name"; "Date"; "EntryTime"; "ExitTime"; "Status"].

(** ** The world of the script *)

Definition image : Type := string.

Record email : Type := {
  to : string;
  subject : string;
  body : string
}.

Record world : Type := {
  members_csv : csv_file Member;
  attendance_csv : csv_file Attendance;
  deleted_members_csv : csv_file Member;
  (** the files of [member_images/], by the path the script uses *)
  member_images : gmap string image;
  temp_entry_jpg : option image;
  temp_exit_jpg : option image;
  (** the messages handed to the mail transport *)
  outbox : list email
}.

Inductive msg : Type :=
| warning (text : string)
| error (text : string)
| success (text : string)
| info (text : string).

Global Instance msg_eq_dec : EqDecision msg.
Proof. solve_decision. Defined.

(** The result of running a piece of the script. *)
Record out (A : Type) : Type := Out {
  after : world;
  shown : list msg;
  value : exn + A
}.
Arguments Out {A} _ _ _.
Arguments after {A} _.
Arguments shown {A} _.
Arguments value {A} _.

Definition run (A : Type) : Type := world → out A.

Global Instance run_ret : MRet run := λ A a w, Out w [] (inr a).

Global Instance run_bind : MBind run := λ A B k m w,
  let r := m w in
  match value r with
  | inl e => Out (after r) (shown r) (inl e)
  | inr a =>
      let r' := k a (after r) in
      Out (after r') (shown r ++ shown r') (value r')
  end.

Definition raise {A} (e : exn) : run A := λ w, Out w [] (inl e).

(** Reading a part of the world. *)
Definition gets {A} (f : world → A) : run A := λ w, Out w [] (inr (f w)).

(** [st.warning], [st.error], [st.success], [st.info] *)
Definition show (m : msg) : run unit := λ w, Out w [m] (inr tt).

Definition write_members_csv (f : csv_file Member) : run unit := λ w,
  Out {| members_csv := f;
         attendance_csv := attendance_csv w;
         deleted_members_csv := deleted_members_csv w;
         member_images := member_images w;
         temp_entry_jpg := temp_entry_jpg w;
         temp_exit_jpg := temp_exit_jpg w;
         outbox := outbox w |} [] (inr tt).

Definition write_attendance_csv (f : csv_file Attendance) : run unit := λ w,
  Out {| members_csv := members_csv w;
         attendance_csv := f;
         deleted_members_csv := deleted_members_csv w;
         member_images := member_images w;
         temp_entry_jpg := temp_entry_jpg w;
         temp_exit_jpg := temp_exit_jpg w;
         outbox := outbox w |} [] (inr tt).

Definition write_deleted_members_csv (f : csv_file Member) : run unit := λ w,
  Out {| members_csv := members_csv w;
         attendance_csv := attendance_csv w;
         deleted_members_csv := f;
         member_images := member_images w;
         temp_entry_jpg := temp_entry_jpg w;
         temp_exit_jpg := temp_exit_jpg w;
         outbox := outbox w |} [] (inr tt).

(** The world with the photo [img] in the file at [path]. *)
Definition put_member_image (path : string) (img : image) (w : world)
    : world :=
  {| members_csv := members_csv w;
     attendance_csv := attendance_csv w;
     deleted_members_csv := deleted_members_csv w;
     member_images := <[path := img]> (member_images w);
     temp_entry_jpg := temp_entry_jpg w;
     temp_exit_jpg := temp_exit_jpg w;
     outbox := outbox w |}.

(** [img.save(path)] opens the file at [path] for writing.  A path with a
    NUL character is refused with [ValueError].  A path that goes through
    a second directory, [member_images/<sub>/...], has no such directory to
    go through, since [member_images/] holds files only: the open raises
    [NotADirectoryError] when [<sub>] is one of these files and
    [FileNotFoundError] otherwise.  In both cases nothing is written.  The
    limits of the disk (room, length of a file name) are not part of the
    model. *)
Definition save_member_image (path : string) (img : image) : run unit := λ w,
  let written := put_member_image path img w in
  if has_char "000"%char path then Out w [] (inl ValueError)
  else
    match split_at_slash path with
    | (dir, Some rest) =>
        match split_at_slash rest with
        | (sub, Some _) =>
            if bool_decide (is_Some (member_images w !! (dir +:+ "/" +:+ sub)))
            then Out w [] (inl NotADirectoryError)
            else Out w [] (inl FileNotFoundError)
        | (_, None) => Out written [] (inr tt)
        end
    | (_, None) => Out written [] (inr tt)
    end.

(** [os.remove] on every entry of [os.listdir("member_images")] *)
Definition remove_member_images : run unit := λ w,
  Out {| members_csv := members_csv w;
         attendance_csv := attendance_csv w;
         deleted_members_csv := deleted_members_csv w;
         member_images := ∅;
         temp_entry_jpg := temp_entry_jpg w;
         temp_exit_jpg := temp_exit_jpg w;
         outbox := outbox w |} [] (inr tt).

(** [img.save("temp_entry.jpg")] *)
Definition save_temp_entry (img : image) : run unit := λ w,
  Out {| members_csv := members_csv w;
         attendance_csv := attendance_csv w;
         deleted_members_csv := deleted_members_csv w;
         member_images := member_images w;
         temp_entry_jpg := Some img;
         temp_exit_jpg := temp_exit_jpg w;
         outbox := outbox w |} [] (inr tt).

(** [img.save("temp_exit.jpg")] *)
Definition save_temp_exit (img : image) : run unit := λ w,
  Out {| members_csv := members_csv w;
         attendance_csv := attendance_csv w;
         deleted_members_csv := deleted_members_csv w;
         member_images := member_images w;
         temp_entry_jpg := temp_entry_jpg w;
         temp_exit_jpg := Some img;
         outbox := outbox w |} [] (inr tt).

Definition deliver (m : email) : run unit := λ w,
  Out {| members_csv := members_csv w;
         attendance_csv := attendance_csv w;
         deleted_members_csv := deleted_members_csv w;
         member_images := member_images w;
         temp_entry_jpg := temp_entry_jpg w;
         temp_exit_jpg := temp_exit_jpg w;
         outbox := outbox w ++ [m] |} [] (inr tt).

(** The file behind an image path. *)
Definition image_at (path : string) (w : world) : option image :=
  if bool_decide (path = "temp_entry.jpg") then temp_entry_jpg w
  else if bool_decide (path = "temp_exit.jpg") then temp_exit_jpg w
  else member_images w !! path.

(** ** Set-up (lines 14-18): a missing table file is created from
    [pd.DataFrame()] *)

Definition create_if_missing {R} (f : csv_file R) : csv_file R :=
  match f with
  | no_file => to_csv DataFrame_new
  | _ => f
  end.

Definition setup : run unit :=
  f ← gets members_csv;
  write_members_csv (create_if_missing f);;
  f ← gets attendance_csv;
  write_attendance_csv (create_if_missing f);;
  f ← gets deleted_members_csv;
  write_deleted_members_csv (create_if_missing f).

(** ** Helper functions (lines 29-66) *)

(** What [DeepFace.verify] hands back: an exception, or a dictionary with
    the key ["verified"] and perhaps the key ["distance"]. *)
Inductive verify_result : Type :=
| verify_raises
| verify_dict (verified : bool) (distance : option Q).

Section Script.

(** The two outside services.  The verifier reads the two image files; the
    mail transport answers [None] when the message went out and [Some e]
    when it raised [e]. *)
Variable DeepFace_verify : option image → option image → verify_result.
Variable smtp : email → option string.

Definition send_email (to_ subject_ body_ : string) : run bool :=
  let m := {| to := to_; subject := subject_; body := body_ |} in
  match smtp m with
  | None => deliver m;; mret true
  | Some e => show (error ("Email Error: " +:+ e));; mret false
  end.

(** The cells of a members table are kept as the text that stands in the
    file; the types that [read_csv] gives to a column (a number for a
    column of digits, NaN for an empty field) are not part of the model,
    and the statements below speak of the rows as loaded or of the rows as
    written, not of what a text of the form becomes once it is read
    back. *)
Definition load_members : run (DataFrame Member) := λ w,
  match read_csv (members_csv w) with
  | inr df => Out w [] (inr df)
  | inl _ => Out w [] (inr (DataFrame_columns members_columns))
  end.

Definition save_members (df : DataFrame Member) : run unit :=
  write_members_csv (to_csv df).

Definition load_attendance : run (DataFrame Attendance) := λ w,
  match read_csv (attendance_csv w) with
  | inr df =>
      Out w [] (inr {| columns := columns df; rows := na_empty <$> rows df |})
  | inl _ => Out w [] (inr (DataFrame_columns attendance_columns))
  end.

Definition save_attendance (df : DataFrame Attendance) : run unit :=
  write_attendance_csv (to_csv df).

Definition try_verify_faces (img1 img2 : string) (w : world) : bool * Q :=
  match DeepFace_verify (image_at img1 w) (image_at img2 w) with
  | verify_dict verified distance => (verified, default 1%Q distance)
  | verify_raises => (false, 1%Q)
  end.

(** ** Register Member (lines 87-123) *)

Definition new_member (new_id : Z) (name email_ mobile : string)
    (membership : Membership) (fee : Z) (img_path : string) : Member :=
  {| ID := new_id; Name := name; Email := email_; Mobile := mobile;
     Membership_ := membership; Fee := fee; ImagePath := img_path |}.

(** The texts of the three mails (lines 120, 148 and 161). *)
Definition registration_body (name : string) (new_id : Z)
    (membership : Membership) (fee : Z) : string :=
  "Dear " +:+ name +:+ "," +:+ nl +:+ nl +:+ "Welcome to our Gym!"
    +:+ nl +:+ "Your Member ID: " +:+ str new_id +:+ nl
    +:+ "Membership: " +:+ Membership_str membership +:+ nl
    +:+ "Fee: ₹" +:+ str fee +:+ nl +:+ nl +:+ "Stay Fit!" +:+ nl
    +:+ "- Gym Team".

Definition update_body (name : string) (membership : Membership) (fee : Z)
    : string :=
  "Dear " +:+ name +:+ ", your gym details have been updated successfully."
    +:+ nl +:+ "Membership: " +:+ Membership_str membership +:+ nl
    +:+ "Fee: ₹" +:+ str fee.

Definition deletion_body (name selected_id : string) : string :=
  "Dear " +:+ name +:+ ", your gym membership (ID: " +:+ selected_id
    +:+ ") has been deleted from our records.".

(** [f"member_images/{new_id}_{name.replace(' ','_')}.jpg"] *)
Definition member_image_path (new_id : Z) (name : string) : string :=
  "member_images/" +:+ str new_id +:+ "_" +:+ replace_spaces name +:+ ".jpg".

(** [all([name, email, mobile, membership, photo])] *)
Definition all_filled (name email_ mobile : string) (membership : Membership)
    (photo : option image) : bool :=
  truthy name && truthy email_ && truthy mobile
    && truthy (Membership_str membership) && bool_decide (is_Some photo).

Definition register_member (name email_ mobile : string)
    (membership : Membership) (fee : Z) (photo : option image) : run unit :=
  match photo with
  | Some upload =>
      if all_filled name email_ mobile membership photo then
        members ← load_members;
        let new_id := if negb (empty members) then len members + 1 else 1 in
        let img_path := member_image_path new_id name in
        save_member_image img_path upload;;
        let new_data :=
          {| columns := members_columns;
             rows := [new_member new_id name email_ mobile membership fee
                        img_path] |} in
        let members := concat members new_data in
        save_members members;;
        send_email email_ "Gym Registration Successful"
          (registration_body name new_id membership fee);;
        show (success ("Member Registered! ID: " +:+ str new_id))
      else show (warning "Please fill all fields and capture image.")
  | None => show (warning "Please fill all fields and capture image.")
  end.

(** ** Update / Delete Member (lines 128-162) *)

(** [df.iloc[0]] *)
Definition iloc0 {R} (df : DataFrame R) : run R :=
  match rows df with
  | r :: _ => mret r
  | [] => raise IndexError
  end.

(** [int(selected_id)] *)
Definition int_of (selected_id : string) : run Z :=
  match int selected_id with
  | Some k => mret k
  | None => raise ValueError
  end.

Definition has_ID (k : Z) (r : Member) : bool := bool_decide (ID r = k).

(** The page up to its two buttons: [None] when the table is empty and the
    warning is shown instead of the form. *)
Definition selected_member (selected_id : string)
    : run (option (DataFrame Member * Member)) :=
  members ← load_members;
  if empty members then
    show (warning "No members registered yet.");; mret None
  else
    member ←
      iloc0 (select (λ r, bool_decide (str (ID r) = selected_id)) members);
    mret (Some (members, member)).

Definition update_row (k : Z) (name email_ mobile : string)
    (membership : Membership) (fee : Z) (r : Member) : Member :=
  if has_ID k r then
    {| ID := ID r; Name := name; Email := email_; Mobile := mobile;
       Membership_ := membership; Fee := fee; ImagePath := ImagePath r |}
  else r.

Definition update_member (selected_id name email_ mobile : string)
    (membership : Membership) (fee : Z) : run unit :=
  page ← selected_member selected_id;
  match page with
  | None => mret tt
  | Some (members, member) =>
      k ← int_of selected_id;
      let members :=
        {| columns := columns members;
           rows := update_row k name email_ mobile membership fee
                     <$> rows members |} in
      save_members members;;
      send_email email_ "Gym Details Updated"
        (update_body name membership fee);;
      show (success "Member updated successfully.")
  end.

Definition delete_member (selected_id : string) : run unit :=
  page ← selected_member selected_id;
  match page with
  | None => mret tt
  | Some (members, member) =>
      k ← int_of selected_id;
      let del_member := select (has_ID k) members in
      let members := select (λ r, negb (has_ID k r)) members in
      save_members members;;
      let deleted := del_member in
      (if negb (empty deleted) then
         f ← gets deleted_members_csv;
         match read_csv f with
         | inl e => raise e
         | inr archive => write_deleted_members_csv (to_csv (concat archive deleted))
         end
       else mret tt);;
      send_email (Email member) "Gym Membership Deleted"
        (deletion_body (Name member) selected_id);;
      show (success "Member deleted successfully.")
  end.

(** ** Attendance (lines 167-256) *)

(** The loop of lines 180-186 and of lines 229-235, over the members paired
    with what [try_verify_faces] gave for each. *)
Definition scan_step {A} (best : option A * Q) (cand : A * (bool * Q))
    : option A * Q :=
  let '(matched_row, best_distance) := best in
  let '(row, (match_, dist)) := cand in
  if match_ && float_lt dist best_distance then (Some row, dist)
  else (matched_row, best_distance).

Definition scan {A} (cands : list (A * (bool * Q))) : option A * Q :=
  foldl scan_step (None, 1%Q) cands.

(** Each row of [members.iterrows()] with the answer of
    [try_verify_faces(img_path, row["ImagePath"])]. *)
Definition candidates (img_path : string) (members : DataFrame Member)
    (w : world) : list (Member * (bool * Q)) :=
  (λ row, (row, try_verify_faces img_path (ImagePath row) w)) <$> rows members.

Definition verify_members (img_path : string) (members : DataFrame Member)
    : run (list (Member * (bool * Q))) :=
  gets (candidates img_path members).

(** The key test of lines 195 and 244. *)
Definition mask (idstr today : string) (r : Attendance) : bool :=
  bool_decide (att_ID r = idstr) && bool_decide (Date r = today).

(** Lines 190-209. *)
Definition entry_record (now : datetime) (matched_row : Member) : run unit :=
  attendance ← load_attendance;
  let today := strftime_date now in
  let idstr := str (ID matched_row) in
  let exists_ := select (mask idstr today) attendance in
  if negb (empty exists_) then show (warning "Entry already marked today.")
  else
    let new_entry :=
      {| att_ID := idstr; att_Name := Name matched_row; Date := today;
         EntryTime := strftime_time now; ExitTime := Some EmptyString;
         Status := "Present" |} in
    let attendance :=
      concat attendance
        {| columns := attendance_columns; rows := [new_entry] |} in
    save_attendance attendance;;
    show (success ("Entry marked for " +:+ Name matched_row)).

Definition mark_entry (now : datetime) (photo : option image) : run unit :=
  match photo with
  | Some img =>
      let img_path := "temp_entry.jpg" in
      save_temp_entry img;;
      members ← load_members;
      if empty members then show (warning "No members registered.")
      else
        cands ← verify_members img_path members;
        match fst (scan cands) with
        | Some matched_row => entry_record now matched_row
        | None => show (error "No matching member found.")
        end
  | None => mret tt
  end.

(** [isna() | == ""] of line 245. *)
Definition no_exit (r : Attendance) : bool :=
  match ExitTime r with
  | None => true
  | Some t => bool_decide (t = EmptyString)
  end.

Definition is_open (idstr today : string) (r : Attendance) : bool :=
  mask idstr today r && no_exit r.

(** The two [attendance.at[idx, ...]] assignments of lines 251-252; a
    column of NaN takes the text it is given. *)
Definition close_record (time : string) (r : Attendance) : Attendance :=
  {| att_ID := att_ID r; att_Name := att_Name r; Date := Date r;
     EntryTime := EntryTime r; ExitTime := Some time; Status := "Exited" |}.

(** Lines 239-254. *)
Definition exit_record (now : datetime) (matched_row : Member) : run unit :=
  attendance ← load_attendance;
  let today := strftime_date now in
  let idstr := str (ID matched_row) in
  match list_find (λ r, is_open idstr today r = true) (rows attendance) with
  | None => show (warning "No open entry found for today.")
  | Some (idx, _) =>
      let attendance :=
        {| columns := columns attendance;
           rows := alter (close_record (strftime_time now)) idx
                     (rows attendance) |} in
      save_attendance attendance;;
      show (success ("Exit marked for " +:+ Name matched_row))
  end.

Definition mark_exit (now : datetime) (photo : option image) : run unit :=
  match photo with
  | Some img =>
      let img_path := "temp_exit.jpg" in
      save_temp_exit img;;
      members ← load_members;
      if empty members then show (warning "No members registered.")
      else
        cands ← verify_members img_path members;
        match fst (scan cands) with
        | Some matched_row => exit_record now matched_row
        | None => show (error "No matching member found.")
        end
  | None => mret tt
  end.

(** ** View pages (lines 261-280): the table and its download button
    change nothing, and only the remark on an empty table is kept here *)

Definition view_members : run unit :=
  df ← load_members;
  if empty df then show (info "No members found.") else mret tt.

Definition view_attendance : run unit :=
  df ← load_attendance;
  if empty df then show (info "No attendance records.") else mret tt.

(** ** Reset DB (lines 285-292) *)

Definition reset_db : run unit :=
  write_members_csv (to_csv DataFrame_new);;
  write_attendance_csv (to_csv DataFrame_new);;
  write_deleted_members_csv (to_csv DataFrame_new);;
  remove_member_images;;
  show (success "All data reset successfully!").

(** ** One run of the script *)

Inductive action : Type :=
| RegisterMember (name email_ mobile : string) (membership : Membership)
    (fee : Z) (photo : option image)
| UpdateMember (selected_id name email_ mobile : string)
    (membership : Membership) (fee : Z)
| DeleteMember (selected_id : string)
| AttendanceEntry (now : datetime) (photo : option image)
| AttendanceExit (now : datetime) (photo : option image)
| ViewMembers
| ViewAttendance
| ResetDB.

Definition page (a : action) : run unit :=
  match a with
  | RegisterMember name email_ mobile membership fee photo =>
      register_member name email_ mobile membership fee photo
  | UpdateMember selected_id name email_ mobile membership fee =>
      update_member selected_id name email_ mobile membership fee
  | DeleteMember selected_id => delete_member selected_id
  | AttendanceEntry now photo => mark_entry now photo
  | AttendanceExit now photo => mark_exit now photo
  | ViewMembers => view_members
  | ViewAttendance => view_attendance
  | ResetDB => reset_db
  end.

Definition script (a : action) : run unit := setup;; page a.

(** The world after a series of runs, whatever each of them showed. *)
Definition session (actions : list action) (w : world) : world :=
  foldl (λ w a, after (script a w)) w actions.

End Script.

(** A machine on which the script has never run. *)
Definition fresh : world :=
  {| members_csv := no_file; attendance_csv := no_file;
     deleted_members_csv := no_file; member_images := ∅;
     temp_entry_jpg := None; temp_exit_jpg := None; outbox := [] |}.

(** ** Sample data for the examples *)

Definition sample_now : datetime :=
  {| year := 2026; month := 11; day := 3;
     hour := 9; minute := 5; second := 0 |}.

Definition Asha : Member :=
  new_member 1 "Asha" "asha@example.org" "9876543210" Monthly 500
    (member_image_path 1 "Asha").

Definition Asha_entry : Attendance :=
  {| att_ID := "1"; att_Name := "Asha"; Date := "2026-11-03";
     EntryTime := "07:30:00"; ExitTime := None; Status := "Present" |}.

(** One member and no attendance yet. *)
Definition one_member : world :=
  {| members_csv := table members_columns [Asha];
     attendance_csv := no_header;
     deleted_members_csv := no_header;
     member_images := {[ImagePath Asha := "asha.jpg"]};
     temp_entry_jpg := None; temp_exit_jpg := None; outbox := [] |}.

(** The same, after the member came in this morning. *)
Definition one_member_inside : world :=
  {| members_csv := table members_columns [Asha];
     attendance_csv := table attendance_columns [Asha_entry];
     deleted_members_csv := no_header;
     member_images := {[ImagePath Asha := "asha.jpg"]};
     temp_entry_jpg := None; temp_exit_jpg := None; outbox := [] |}.

(** Three verifiers: a match at 0.2, a match at 1.2, and a match whose
    dictionary has no distance. *)
Definition near_match (img1 img2 : option image) : verify_result :=
  verify_dict true (Some (1 # 5)%Q).

Definition far_match (img1 img2 : option image) : verify_result :=
  verify_dict true (Some (6 # 5)%Q).

Definition match_without_distance (img1 img2 : option image)
    : verify_result :=
  verify_dict true None.

Definition mail_goes_out (m : email) : option string := None.

(** ** Notions for the statements

    The table as the script loads it. *)
Definition members_of (w : world) : DataFrame Member :=
  match read_csv (members_csv w) with
  | inr df => df
  | inl _ => DataFrame_columns members_columns
  end.

Definition attendance_of (w : world) : DataFrame Attendance :=
  match read_csv (attendance_csv w) with
  | inr df => {| columns := columns df; rows := na_empty <$> rows df |}
  | inl _ => DataFrame_columns attendance_columns
  end.

(** The candidate at position [i] is the first one, in the order of the
    scan, whose distance is the least among the candidates that matched. *)
Definition first_best {A} (cands : list (A * (bool * Q))) (i : nat) (row : A)
    (d : Q) : Prop :=
  cands !! i = Some (row, (true, d))
  ∧ (∀ j r' d', cands !! j = Some (r', (true, d')) → (d <= d')%Q)
  ∧ (∀ j r' d', (j < i)%nat → cands !! j = Some (r', (true, d')) → (d < d')%Q).

(** What the scan leaves in [(matched_row, best_distance)]. *)
Inductive scan_outcome {A} (cands : list (A * (bool * Q)))
    : option A * Q → Prop :=
| nobody_below_one :
    (∀ j r d, cands !! j = Some (r, (true, d)) → (1 <= d)%Q) →
    scan_outcome cands (None, 1%Q)
| first_below_one i row d :
    first_best cands i row d → (d < 1)%Q →
    scan_outcome cands (Some row, d).

(** The end of the three member handlers: the mail, then the green box. *)
Definition mail_then_success (smtp : email → option string)
    (to_ subject_ body_ text : string) : run unit :=
  send_email smtp to_ subject_ body_;; show (success text).

(** Two worlds with the same files. *)
Definition same_files (w w' : world) : Prop :=
  members_csv w' = members_csv w
  ∧ attendance_csv w' = attendance_csv w
  ∧ deleted_members_csv w' = deleted_members_csv w
  ∧ member_images w' = member_images w
  ∧ temp_entry_jpg w' = temp_entry_jpg w
  ∧ temp_exit_jpg w' = temp_exit_jpg w.

(** What the form holds when the button is pressed. *)
Record registration : Type := {
  reg_name : string;
  reg_email : string;
  reg_mobile : string;
  reg_membership : Membership;
  reg_fee : Z;
  reg_photo : option image
}.

Definition register_action (g : registration) : action :=
  RegisterMember (reg_name g) (reg_email g) (reg_mobile g)
    (reg_membership g) (reg_fee g) (reg_photo g).


(** A name under which the photo can be written: with neither ["/"] nor a
    NUL character. *)
Definition writable (name : string) : bool :=
  negb (has_char "/"%char name) && negb (has_char "000"%char name).


(** The rows that stand in a file. *)
Definition file_rows {R} (f : csv_file R) : list R :=
  match f with
  | table _ body => body
  | _ => []
  end.


Definition sample_registrations : list registration :=
  [ {| reg_name := "Asha"; reg_email := "asha@example.org";
       reg_mobile := "9876543210"; reg_membership := Monthly;
       reg_fee := 500; reg_photo := Some "asha.jpg" |};
    {| reg_name := "Bela"; reg_email := EmptyString;
       reg_mobile := "9876500000"; reg_membership := Yearly;
       reg_fee := 4000; reg_photo := Some "bela.jpg" |};
    {| reg_name := "Chand Rao"; reg_email := "chand@example.org";
       reg_mobile := "9876511111"; reg_membership := Quarterly;
       reg_fee := 0; reg_photo := Some "chand.jpg" |} ].

(** The member and the day that a record of attendance stands for. *)
Definition att_key (r : Attendance) : string * string := (att_ID r, Date r).

(** What an entry never loses afterwards. *)
Definition att_entry (r : Attendance) : string * string * string * string :=
  (att_ID r, att_Name r, Date r, EntryTime r).

(** The record that [mark_entry] writes, as it is read back. *)
Definition entry_row (now : datetime) (matched_row : Member) : Attendance :=
  {| att_ID := str (ID matched_row); att_Name := Name matched_row;
     Date := strftime_date now; EntryTime := strftime_time now;
     ExitTime := None; Status := "Present" |}.

(** What one run of the script can do to the rows of the attendance
    table, the reset apart. *)
Inductive attendance_step (old : list Attendance) : list Attendance → Prop :=
| attendance_kept : attendance_step old old
| attendance_closed idx r time :
    old !! idx = Some r → no_exit r = true → time ≠ EmptyString →
    attendance_step old (alter (close_record time) idx old)
| attendance_entered new :
    (∀ r, r ∈ old → att_key r ≠ att_key new) →
    attendance_step old (old ++ [new]).

Definition is_reset (a : action) : bool :=
  match a with
  | ResetDB => true
  | _ => false
  end.

(** The answer of the verifier is not a match. *)
Definition not_verified (v : verify_result) : bool :=
  match v with
  | verify_dict true _ => false
  | _ => true
  end.

(** More sample data. *)
Definition verifier_raises (img1 img2 : option image) : verify_result :=
  verify_raises.


Definition sample_evening : datetime :=
  {| year := 2026; month := 11; day := 3;
     hour := 18; minute := 40; second := 12 |}.

Definition Bela : Member :=
  new_member 2 "Bela" "bela@example.org" "9876500000" Yearly 4000
    (member_image_path 2 "Bela").

(** Two members, an archive file with its column line, and the first
    member inside since the morning. *)
Definition two_members : world :=
  {| members_csv := table members_columns [Asha; Bela];
     attendance_csv := table attendance_columns [Asha_entry];
     deleted_members_csv := table members_columns [];
     member_images :=
       {[ImagePath Asha := "asha.jpg"; ImagePath Bela := "bela.jpg"]};
     temp_entry_jpg := None; temp_exit_jpg := None; outbox := [] |}.


(** * Properties *)

(** ** Values *)

Lemma int_str (k : Z) : int (str k) = Some k.
Proof.
  unfold int, str.
  rewrite NilZero.isi.
  - simpl. f_equal. apply DecimalZ.of_to.
  - destruct k; simpl; try discriminate.
    intros [= H]. by apply DecimalPos.Unsigned.to_uint_nonnil in H.
  - destruct k; simpl; try discriminate.
    intros [= H]. by apply DecimalPos.Unsigned.to_uint_nonnil in H.
Qed.

Lemma str_inj (j k : Z) : str j = str k → j = k.
Proof.
  intros H. apply (f_equal int) in H. rewrite !int_str in H. congruence.
Qed.

Lemma has_char_app c (a b : string) :
  has_char c (a +:+ b) = has_char c a || has_char c b.
Proof.
  induction a as [|x a IH]; [done|]. simpl. rewrite IH. apply orb_assoc.
Qed.

(** [str] gives digits and a sign. *)
Lemma has_char_str c (n : Z) :
  forallb (λ x, negb (Ascii.eqb x c))
    ["0"; "1"; "2"; "3"; "4"; "5"; "6"; "7"; "8"; "9"; "-"]%char = true →
  has_char c (str n) = false.
Proof.
  intros Hc. simpl in Hc.
  repeat (apply andb_true_iff in Hc as [?%negb_true_iff Hc]).
  assert (Huint : ∀ d, has_char c (NilEmpty.string_of_uint d) = false).
  { induction d; simpl; rewrite ?IHd; by rewrite ?orb_false_r. }
  assert (Hzero : ∀ d, has_char c (NilZero.string_of_uint d) = false).
  { intros d. destruct d; try apply Huint. simpl. by rewrite orb_false_r. }
  unfold str, NilZero.string_of_int.
  destruct (Z.to_int n) as [d|d]; [apply Hzero|].
  simpl. rewrite Hzero. by rewrite orb_false_r.
Qed.

Lemma has_char_replace_spaces c (name : string) :
  Ascii.eqb " " c = false → Ascii.eqb "_" c = false →
  has_char c (replace_spaces name) = has_char c name.
Proof.
  intros Hspace Hunder. induction name as [|x name IH]; [done|].
  simpl. rewrite IH. f_equal.
  destruct (Ascii.eqb_spec x " ") as [->|_]; [|done].
  by rewrite Hspace, Hunder.
Qed.

Lemma split_at_slash_none (s : string) :
  has_char "/" s = false → split_at_slash s = (s, None).
Proof.
  induction s as [|x s IH]; [done|]. simpl.
  intros [Hx Hs]%orb_false_iff. rewrite Hx, IH by done. done.
Qed.

Lemma split_at_slash_some (s : string) :
  has_char "/" s = true → ∃ head tail, split_at_slash s = (head, Some tail).
Proof.
  induction s as [|x s IH]; [done|]. simpl.
  destruct (Ascii.eqb x "/"); [eauto|]. simpl. intros Hs.
  destruct (IH Hs) as (head & tail & ->). eauto.
Qed.

Lemma float_lt_true (x y : Q) : float_lt x y = true ↔ (x < y)%Q.
Proof.
  unfold float_lt. rewrite Qlt_alt. destruct (x ?= y)%Q; split; congruence.
Qed.

Lemma float_lt_false (x y : Q) : float_lt x y = false ↔ (y <= x)%Q.
Proof.
  split.
  - intros H. apply Qnot_lt_le. intros Hlt.
    apply float_lt_true in Hlt. congruence.
  - intros H. destruct (float_lt x y) eqn:E; [|done].
    apply float_lt_true in E. by apply Qle_not_lt in H.
Qed.

(** ** The scan *)

Section Scan.
Context {A : Type}.
Implicit Types (cands : list (A * (bool * Q))) (row : A) (d : Q).

Lemma scan_snoc cands c : scan (cands ++ [c]) = scan_step (scan cands) c.
Proof. unfold scan. apply foldl_snoc. Qed.

Lemma scan_outcome_scan cands : scan_outcome cands (scan cands).
Proof.
  induction cands as [|[r [m dc]] cands IH] using rev_ind.
  - constructor. intros j r d Hj. by rewrite lookup_nil in Hj.
  - rewrite scan_snoc.
    destruct IH as [Hnone|i row d (Hi & Hmin & Hfirst) Hd]; simpl.
    + destruct m; simpl; [destruct (float_lt dc 1) eqn:E|].
      * apply float_lt_true in E.
        apply (first_below_one _ (length cands)); [|done].
        split_and!.
        -- by apply list_lookup_middle.
        -- intros j r' d' [[_ Hj]|[_ [= _ <-]]]%lookup_snoc_Some.
           ++ apply Qlt_le_weak, Qlt_le_trans with 1%Q; eauto.
           ++ apply Qle_refl.
        -- intros j r' d' Hlt Hj. rewrite lookup_app_l in Hj by done.
           apply Qlt_le_trans with 1%Q; eauto.
      * apply float_lt_false in E. constructor.
        intros j r' d' [[_ Hj]|[_ [= _ <-]]]%lookup_snoc_Some; eauto.
      * constructor.
        intros j r' d' [[_ Hj]|[_ [=]]]%lookup_snoc_Some; eauto.
    + pose proof (lookup_lt_Some _ _ _ Hi) as Hlen.
      destruct m; simpl; [destruct (float_lt dc d) eqn:E|].
      * apply float_lt_true in E.
        apply (first_below_one _ (length cands)).
        2:{ by apply Qlt_trans with d. }
        split_and!.
        -- by apply list_lookup_middle.
        -- intros j r' d' [[_ Hj]|[_ [= _ <-]]]%lookup_snoc_Some.
           ++ apply Qlt_le_weak, Qlt_le_trans with d; eauto.
           ++ apply Qle_refl.
        -- intros j r' d' Hlt Hj. rewrite lookup_app_l in Hj by done.
           apply Qlt_le_trans with d; eauto.
      * apply float_lt_false in E.
        apply (first_below_one _ i); [|done].
        split_and!.
        -- by rewrite lookup_app_l.
        -- intros j r' d' [[_ Hj]|[_ [= _ <-]]]%lookup_snoc_Some; eauto.
        -- intros j r' d' Hlt Hj.
           rewrite lookup_app_l in Hj by lia. eauto.
      * apply (first_below_one _ i); [|done].
        split_and!.
        -- by rewrite lookup_app_l.
        -- intros j r' d' [[_ Hj]|[_ [=]]]%lookup_snoc_Some; eauto.
        -- intros j r' d' Hlt Hj.
           rewrite lookup_app_l in Hj by lia. eauto.
Qed.

(** There is one first-and-best candidate at most. *)
Lemma first_best_unique cands i row d i' row' d' :
  first_best cands i row d → first_best cands i' row' d' →
  i = i' ∧ row = row' ∧ d = d'.
Proof.
  intros (Hi & Hmin & Hfirst) (Hi' & Hmin' & Hfirst').
  destruct (lt_eq_lt_dec i i') as [[Hlt | ->] | Hlt].
  - pose proof (Hfirst' _ _ _ Hlt Hi) as H1.
    pose proof (Hmin _ _ _ Hi') as H2.
    by apply Qle_not_lt in H2.
  - rewrite Hi in Hi'. by simplify_eq.
  - pose proof (Hfirst _ _ _ Hlt Hi') as H1.
    pose proof (Hmin' _ _ _ Hi) as H2.
    by apply Qle_not_lt in H2.
Qed.

Lemma scan_first_best_below_one cands i row d :
  first_best cands i row d → (d < 1)%Q → scan cands = (Some row, d).
Proof.
  intros Hbest Hd.
  destruct (scan_outcome_scan cands) as [Hnone|i' row' d' Hbest' _].
  - destruct Hbest as (Hi & _ & _). apply Hnone in Hi.
    by apply Qle_not_lt in Hi.
  - by destruct (first_best_unique _ _ _ _ _ _ _ Hbest' Hbest) as (_ & -> & ->).
Qed.

Lemma scan_nobody cands :
  (∀ j r d, cands !! j = Some (r, (true, d)) → (1 <= d)%Q) →
  scan cands = (None, 1%Q).
Proof.
  intros Hall.
  destruct (scan_outcome_scan cands) as [_|i row d (Hi & _ & _) Hd]; [done|].
  apply Hall in Hi. by apply Qle_not_lt in Hi.
Qed.

Lemma scan_Some cands row d :
  scan cands = (Some row, d) →
  (d < 1)%Q ∧ ∃ i, first_best cands i row d.
Proof.
  intros Hscan.
  pose proof (scan_outcome_scan cands) as H. rewrite Hscan in H.
  inversion H; subst. eauto.
Qed.

Lemma scan_None cands :
  fst (scan cands) = None →
  ∀ j r d, cands !! j = Some (r, (true, d)) → (1 <= d)%Q.
Proof.
  intros Hscan.
  pose proof (scan_outcome_scan cands) as H.
  destruct H as [Hnone|]; [done|discriminate].
Qed.

(** Unless no candidate matched, some candidate is first and best. *)
Lemma first_best_or_no_match cands :
  (∀ j r d, cands !! j = Some (r, (true, d)) → False)
  ∨ ∃ i row d, first_best cands i row d.
Proof.
  induction cands as [|[r0 [m dc]] cands IH] using rev_ind.
  - left. intros j r d Hj. by rewrite lookup_nil in Hj.
  - assert (Hold : ∀ i row d, first_best cands i row d →
      (m = true → (d <= dc)%Q) →
      first_best (cands ++ [(r0, (m, dc))]) i row d).
    { intros i row d (Hi & Hmin & Hfirst) Hm.
      pose proof (lookup_lt_Some _ _ _ Hi) as Hlen. split_and!.
      - by rewrite lookup_app_l.
      - intros j' r' d' [[_ H]|[_ [= _ Hm' <-]]]%lookup_snoc_Some; eauto.
      - intros j' r' d' Hlt H. rewrite lookup_app_l in H by lia. eauto. }
    assert (Hnew : m = true →
      (∀ j' r' d', cands !! j' = Some (r', (true, d')) → (dc < d')%Q) →
      first_best (cands ++ [(r0, (m, dc))]) (length cands) r0 dc).
    { intros -> Hall. split_and!.
      - by apply list_lookup_middle.
      - intros j' r' d' [[_ H]|[_ [= _ <-]]]%lookup_snoc_Some.
        + apply Qlt_le_weak. eauto.
        + apply Qle_refl.
      - intros j' r' d' Hlt H. rewrite lookup_app_l in H by done. eauto. }
    destruct IH as [Hno|(i & row & d & Hbest)].
    + destruct m.
      * right. exists (length cands), r0, dc. apply Hnew; [done|].
        intros j' r' d' H. destruct (Hno _ _ _ H).
      * left. intros j r d [[_ H]|[_ [=]]]%lookup_snoc_Some. eauto.
    + right. destruct m; [destruct (Qlt_le_dec dc d) as [Hlt|Hle]|].
      * exists (length cands), r0, dc. apply Hnew; [done|].
        intros j'' r'' d'' H. destruct Hbest as (_ & Hmin & _).
        apply Qlt_le_trans with d; eauto.
      * exists i, row, d. by apply Hold.
      * exists i, row, d. by apply Hold.
Qed.

Lemma first_best_exists cands j r dj :
  cands !! j = Some (r, (true, dj)) →
  ∃ i row d, first_best cands i row d.
Proof.
  intros Hj. destruct (first_best_or_no_match cands) as [Hno|H]; [|done].
  destruct (Hno _ _ _ Hj).
Qed.

End Scan.

(** ** Running the handlers *)

Lemma out_eta {A} (r : out A) : Out (after r) (shown r) (value r) = r.
Proof. by destruct r. Qed.

Lemma bind_eq {A B} (m : run A) (k : A → run B) w :
  (m ≫= k) w =
    match value (m w) with
    | inl e => Out (after (m w)) (shown (m w)) (inl e)
    | inr a =>
        Out (after (k a (after (m w))))
          (shown (m w) ++ shown (k a (after (m w))))
          (value (k a (after (m w))))
    end.
Proof. done. Qed.

Lemma bind_inr {A B} (m : run A) (k : A → run B) w a :
  value (m w) = inr a →
  (m ≫= k) w =
    Out (after (k a (after (m w)))) (shown (m w) ++ shown (k a (after (m w))))
      (value (k a (after (m w)))).
Proof. intros H. unfold mbind, run_bind. simpl. by rewrite H. Qed.

Lemma bind_silent {A B} (m : run A) (k : A → run B) w a :
  value (m w) = inr a → shown (m w) = [] →
  (m ≫= k) w = k a (after (m w)).
Proof.
  intros Hv Hs. rewrite (bind_inr _ _ _ _ Hv), Hs. simpl. apply out_eta.
Qed.

Lemma columns_members_of w : columns (members_of w) ≠ [].
Proof.
  unfold members_of. by destruct (members_csv w) as [| |[|c cs] body].
Qed.

Lemma columns_attendance_of w : columns (attendance_of w) ≠ [].
Proof.
  unfold attendance_of. by destruct (attendance_csv w) as [| |[|c cs] body].
Qed.

Lemma empty_rows {R} (df : DataFrame R) :
  columns df ≠ [] → empty df = bool_decide (rows df = []).
Proof.
  intros H. unfold empty. rewrite (bool_decide_eq_false_2 (columns df = [])) by done.
  apply orb_false_r.
Qed.

Lemma to_csv_table {R} (df : DataFrame R) :
  columns df ≠ [] → to_csv df = table (columns df) (rows df).
Proof. unfold to_csv. by destruct (columns df). Qed.

Lemma read_csv_to_csv {R} (df : DataFrame R) :
  columns df ≠ [] → read_csv (to_csv df) = inr df.
Proof.
  intros H. rewrite to_csv_table by done. destruct df as [[|c cs] rs]; done.
Qed.

(** The photo of a registration is written exactly when the name has
    neither ["/"] nor a NUL character. *)
Lemma has_char_member_image_path c new_id name :
  forallb (λ x, negb (Ascii.eqb x c))
    ["0"; "1"; "2"; "3"; "4"; "5"; "6"; "7"; "8"; "9"; "-"; " "; "_";
     "."; "j"; "p"; "g"]%char = true →
  has_char c (str new_id +:+ "_" +:+ replace_spaces name +:+ ".jpg")
    = has_char c name.
Proof.
  intros Hc. cbn [forallb] in Hc.
  repeat (apply andb_true_iff in Hc as [?%negb_true_iff Hc]).
  assert (Hstr : has_char c (str new_id) = false).
  { apply has_char_str. cbn [forallb].
    repeat (apply andb_true_iff; split); try done; by apply negb_true_iff. }
  rewrite !has_char_app, Hstr, has_char_replace_spaces by done.
  cbn [has_char orb].
  repeat match goal with
         | H : Ascii.eqb _ c = false |- _ => rewrite H; clear H
         end.
  cbn [orb]. by rewrite !orb_false_r.
Qed.

Lemma member_image_path_split new_id name :
  split_at_slash (member_image_path new_id name)
    = ("member_images",
       Some (str new_id +:+ "_" +:+ replace_spaces name +:+ ".jpg")).
Proof. done. Qed.

Lemma has_char_nul_member_image_path new_id name :
  has_char "000" (member_image_path new_id name)
    = has_char "000" (str new_id +:+ "_" +:+ replace_spaces name +:+ ".jpg").
Proof. done. Qed.

Lemma save_member_image_writable new_id name img w :
  writable name = true →
  save_member_image (member_image_path new_id name) img w
    = Out (put_member_image (member_image_path new_id name) img w) []
        (inr tt).
Proof.
  intros [Hslash Hnul]%andb_true_iff.
  apply negb_true_iff in Hslash, Hnul.
  unfold save_member_image. cbv zeta.
  rewrite has_char_nul_member_image_path, member_image_path_split.
  rewrite has_char_member_image_path, Hnul by done.
  rewrite split_at_slash_none; [done|].
  by rewrite has_char_member_image_path.
Qed.

Lemma save_member_image_unwritable new_id name img w :
  writable name = false →
  ∃ e, save_member_image (member_image_path new_id name) img w
       = Out w [] (inl e).
Proof.
  intros Hname. unfold save_member_image. cbv zeta.
  rewrite has_char_nul_member_image_path, member_image_path_split.
  rewrite has_char_member_image_path by done.
  destruct (has_char "000" name) eqn:Hnul; [eauto|].
  assert (Hslash : has_char "/"
    (str new_id +:+ "_" +:+ replace_spaces name +:+ ".jpg") = true).
  { rewrite has_char_member_image_path by done.
    unfold writable in Hname. rewrite Hnul, andb_true_r in Hname.
    by apply negb_false_iff in Hname. }
  destruct (split_at_slash_some _ Hslash) as (sub & tail & ->).
  destruct (bool_decide _); eauto.
Qed.

Section Handlers.
Variable DeepFace_verify : option image → option image → verify_result.
Variable smtp : email → option string.

Lemma load_members_eq w : load_members w = Out w [] (inr (members_of w)).
Proof.
  unfold load_members, members_of.
  by destruct (read_csv (members_csv w)).
Qed.

Lemma load_attendance_eq w :
  load_attendance w = Out w [] (inr (attendance_of w)).
Proof.
  unfold load_attendance, attendance_of.
  by destruct (read_csv (attendance_csv w)).
Qed.

Lemma entry_record_eq now row w :
  let att := attendance_of w in
  let today := strftime_date now in
  let idstr := str (ID row) in
  entry_record now row w =
    if negb (empty (select (mask idstr today) att)) then
      Out w [warning "Entry already marked today."] (inr tt)
    else
      Out (after (save_attendance
                    (concat att
                       {| columns := attendance_columns;
                          rows := [{| att_ID := idstr; att_Name := Name row;
                                      Date := today;
                                      EntryTime := strftime_time now;
                                      ExitTime := Some EmptyString;
                                      Status := "Present" |}] |}) w))
        [success ("Entry marked for " +:+ Name row)] (inr tt).
Proof.
  intros att today idstr. unfold entry_record.
  rewrite (bind_silent _ _ _ (attendance_of w))
    by (by rewrite load_attendance_eq).
  rewrite load_attendance_eq. simpl. fold att today idstr.
  by destruct (negb _).
Qed.

Lemma mark_entry_eq now img w :
  let w' := after (save_temp_entry img w) in
  let members := members_of w in
  mark_entry DeepFace_verify now (Some img) w =
    if empty members then Out w' [warning "No members registered."] (inr tt)
    else
      match
        fst (scan (candidates DeepFace_verify "temp_entry.jpg" members w'))
      with
      | Some matched_row => entry_record now matched_row w'
      | None => Out w' [error "No matching member found."] (inr tt)
      end.
Proof.
  intros w' members. unfold mark_entry.
  rewrite (bind_silent _ _ _ tt) by done. fold w'.
  rewrite (bind_silent _ _ _ members) by (by rewrite load_members_eq).
  rewrite load_members_eq. simpl.
  destruct (empty members); [done|].
  rewrite (bind_silent _ _ _
             (candidates DeepFace_verify "temp_entry.jpg" members w')) by done.
  by destruct (scan _).1.
Qed.

Lemma exit_record_eq now row w :
  let att := attendance_of w in
  let today := strftime_date now in
  let idstr := str (ID row) in
  exit_record now row w =
    match list_find (λ r, is_open idstr today r = true) (rows att) with
    | None => Out w [warning "No open entry found for today."] (inr tt)
    | Some (idx, _) =>
        Out (after (save_attendance
                      {| columns := columns att;
                         rows := alter (close_record (strftime_time now)) idx
                                   (rows att) |} w))
          [success ("Exit marked for " +:+ Name row)] (inr tt)
    end.
Proof.
  intros att today idstr. unfold exit_record.
  rewrite (bind_silent _ _ _ (attendance_of w))
    by (by rewrite load_attendance_eq).
  rewrite load_attendance_eq. simpl. fold att today idstr.
  by destruct (list_find _ _) as [[idx r]|].
Qed.

Lemma mark_exit_eq now img w :
  let w' := after (save_temp_exit img w) in
  let members := members_of w in
  mark_exit DeepFace_verify now (Some img) w =
    if empty members then Out w' [warning "No members registered."] (inr tt)
    else
      match
        fst (scan (candidates DeepFace_verify "temp_exit.jpg" members w'))
      with
      | Some matched_row => exit_record now matched_row w'
      | None => Out w' [error "No matching member found."] (inr tt)
      end.
Proof.
  intros w' members. unfold mark_exit.
  rewrite (bind_silent _ _ _ tt) by done. fold w'.
  rewrite (bind_silent _ _ _ members) by (by rewrite load_members_eq).
  rewrite load_members_eq. simpl.
  destruct (empty members); [done|].
  rewrite (bind_silent _ _ _
             (candidates DeepFace_verify "temp_exit.jpg" members w')) by done.
  by destruct (scan _).1.
Qed.

Lemma mail_then_success_spec to_ subject_ body_ text w :
  let r := mail_then_success smtp to_ subject_ body_ text w in
  same_files w (after r) ∧ value r = inr tt
  ∧ ∃ errors : list msg, shown r = (errors ++ [success text])%list.
Proof.
  unfold mail_then_success, send_email, mbind, run_bind. simpl.
  destruct (smtp _) as [e|]; simpl.
  - split_and!; [done..|]. by exists [error ("Email Error: " +:+ e)].
  - split_and!; [done..|]. by exists [].
Qed.

Lemma register_member_eq name email_ mobile membership fee upload w :
  all_filled name email_ mobile membership (Some upload) = true →
  writable name = true →
  let members := members_of w in
  let new_id := if negb (empty members) then len members + 1 else 1 in
  let img_path := member_image_path new_id name in
  let new_data :=
    {| columns := members_columns;
       rows := [new_member new_id name email_ mobile membership fee
                  img_path] |} in
  register_member smtp name email_ mobile membership fee (Some upload) w =
    mail_then_success smtp email_ "Gym Registration Successful"
      (registration_body name new_id membership fee)
      ("Member Registered! ID: " +:+ str new_id)
      (after (save_members (concat members new_data)
                (put_member_image img_path upload w))).
Proof.
  intros Hall Hname members new_id img_path new_data. unfold register_member.
  rewrite Hall.
  rewrite (bind_silent _ _ _ members) by (by rewrite load_members_eq).
  rewrite load_members_eq. simpl. fold new_id img_path new_data.
  unfold img_path.
  rewrite (bind_silent _ _ _ tt)
    by (by rewrite save_member_image_writable).
  rewrite save_member_image_writable by done. cbn [after].
  by rewrite (bind_silent _ _ _ tt) by done.
Qed.

(** With a name under which the photo cannot be written, the run stops at
    [img.save]: nothing is saved, sent or shown. *)
Lemma register_member_raises name email_ mobile membership fee upload w :
  all_filled name email_ mobile membership (Some upload) = true →
  writable name = false →
  ∃ e, register_member smtp name email_ mobile membership fee (Some upload) w
       = Out w [] (inl e).
Proof.
  intros Hall Hname. unfold register_member. rewrite Hall.
  rewrite (bind_silent _ _ _ (members_of w)) by (by rewrite load_members_eq).
  rewrite load_members_eq. cbn [after].
  set (new_id := if negb (empty (members_of w)) then _ else _).
  destruct (save_member_image_unwritable new_id name upload w Hname)
    as [e He].
  exists e. by rewrite bind_eq, He.
Qed.

Lemma register_member_rejected name email_ mobile membership fee photo w :
  all_filled name email_ mobile membership photo = false →
  register_member smtp name email_ mobile membership fee photo w =
    Out w [warning "Please fill all fields and capture image."] (inr tt).
Proof.
  intros Hall. unfold register_member. destruct photo; [|done].
  by rewrite Hall.
Qed.

Lemma delete_member_eq selected_id w :
  let members := members_of w in
  delete_member smtp selected_id w =
    if empty members then
      Out w [warning "No members registered yet."] (inr tt)
    else
      match
        rows (select (λ r, bool_decide (str (ID r) = selected_id)) members)
      with
      | [] => Out w [] (inl IndexError)
      | member :: _ =>
          match int selected_id with
          | None => Out w [] (inl ValueError)
          | Some k =>
              let deleted := select (has_ID k) members in
              let w1 :=
                after (save_members (select (λ r, negb (has_ID k r)) members)
                         w) in
              let finish :=
                mail_then_success smtp (Email member)
                  "Gym Membership Deleted"
                  (deletion_body (Name member) selected_id)
                  "Member deleted successfully." in
              if negb (empty deleted) then
                match read_csv (deleted_members_csv w) with
                | inl e => Out w1 [] (inl e)
                | inr archive =>
                    finish (after (write_deleted_members_csv
                                     (to_csv (concat archive deleted)) w1))
                end
              else finish w1
          end
      end.
Proof.
  intros members. unfold delete_member.
  assert (Hpage : selected_member selected_id w =
    if empty members then
      Out w [warning "No members registered yet."] (inr None)
    else
      match
        rows (select (λ r, bool_decide (str (ID r) = selected_id)) members)
      with
      | [] => Out w [] (inl IndexError)
      | member :: _ => Out w [] (inr (Some (members, member)))
      end).
  { unfold selected_member.
    rewrite (bind_silent _ _ _ members) by (by rewrite load_members_eq).
    rewrite load_members_eq. simpl. destruct (empty members); [done|].
    unfold iloc0. rewrite bind_eq. simpl. by destruct (filter _ _). }
  rewrite bind_eq, Hpage. destruct (empty members); [done|].
  destruct (rows (select _ members)) as [|member rest]; [done|]. simpl.
  unfold int_of. rewrite bind_eq.
  destruct (int selected_id) as [k|]; [|done]. simpl.
  rewrite bind_eq. simpl.
  destruct (negb (empty (select (has_ID k) members))).
  - rewrite !bind_eq. simpl.
    destruct (read_csv (deleted_members_csv w)) as [e|archive]; [done|].
    simpl. apply out_eta.
  - rewrite bind_eq. simpl. apply out_eta.
Qed.

Lemma reset_db_eq w :
  reset_db w =
    Out {| members_csv := no_header; attendance_csv := no_header;
           deleted_members_csv := no_header; member_images := ∅;
           temp_entry_jpg := temp_entry_jpg w;
           temp_exit_jpg := temp_exit_jpg w; outbox := outbox w |}
      [success "All data reset successfully!"] (inr tt).
Proof. done. Qed.

Lemma setup_eq w :
  setup w =
    Out {| members_csv := create_if_missing (members_csv w);
           attendance_csv := create_if_missing (attendance_csv w);
           deleted_members_csv := create_if_missing (deleted_members_csv w);
           member_images := member_images w;
           temp_entry_jpg := temp_entry_jpg w;
           temp_exit_jpg := temp_exit_jpg w; outbox := outbox w |}
      [] (inr tt).
Proof. done. Qed.

Lemma script_eq a w :
  script DeepFace_verify smtp a w =
    page DeepFace_verify smtp a (after (setup w)).
Proof. unfold script. by rewrite (bind_silent _ _ _ tt). Qed.

Lemma members_of_setup w : members_of (after (setup w)) = members_of w.
Proof. unfold members_of. simpl. by destruct (members_csv w). Qed.

Lemma attendance_of_setup w :
  attendance_of (after (setup w)) = attendance_of w.
Proof. unfold attendance_of. simpl. by destruct (attendance_csv w). Qed.

End Handlers.

(** ** The best match *)

(** C1, as amended.  Over any sequence of per-candidate answers, when the
    least distance among the candidates that matched is strictly below the
    1.0 the scan starts from, the scan ends with the first candidate, in
    the order of the scan, that has this least distance, and with that
    distance; a later candidate whose distance equals the current best does
    not replace it. *)
Theorem scan_selects_first_best {A} (cands : list (A * (bool * Q)))
    (i : nat) (row : A) (d : Q) :
  first_best cands i row d →
  (d < 1)%Q →
  scan cands = (Some row, d)
  ∧ ∀ (later : A) (d' : Q), (d' == d)%Q →
      scan_step (Some row, d) (later, (true, d')) = (Some row, d).
Proof.
  intros Hbest Hd. split.
  - by apply scan_first_best_below_one with i.
  - intros later d' Heq. unfold scan_step.
    rewrite (proj2 (float_lt_false d' d)); [done|].
    rewrite Heq. apply Qle_refl.
Qed.

Lemma scan_selects_first_best_witness :
  let cands :=
    [("Asha", (true, 1 # 2)); ("Bela", (true, 1 # 5));
     ("Chand", (false, 0)); ("Dev", (true, 1 # 5))]%Q in
  first_best cands 1 "Bela" (1 # 5)%Q
  ∧ (1 # 5 < 1)%Q
  ∧ scan cands = (Some "Bela", (1 # 5)%Q).
Proof.
  intros cands.
  assert (Hbest : first_best cands 1 "Bela" (1 # 5)%Q).
  { split_and!.
    - reflexivity.
    - intros [|[|[|[|j]]]] r' d' Hj; simplify_eq/=;
        unfold Qle; simpl; lia.
    - intros [|[|j]] r' d' Hlt Hj; simplify_eq/=; try lia.
      unfold Qlt; simpl; lia. }
  assert (Hd : (1 # 5 < 1)%Q) by reflexivity.
  split_and!; [exact Hbest|exact Hd|].
  exact (proj1 (scan_selects_first_best cands 1%nat "Bela" (1 # 5)%Q Hbest Hd)).
Defined.

(** C1, as the claim has it, fails when the least distance among the
    matches is not below 1.0: the member is first and best among the
    matches, and the scan ends with nobody.  So it is at 1.0, the distance
    that [result.get] gives when the verifier names none, and at 1.2. *)
Lemma scan_first_best_not_selected :
  (first_best [("Asha", (true, 1%Q))] 0 "Asha" 1%Q
   ∧ scan [("Asha", (true, 1%Q))] = (None, 1%Q))
  ∧ (first_best [("Asha", (false, 0%Q)); ("Bela", (true, (6 # 5)%Q))] 1
       "Bela" (6 # 5)%Q
     ∧ scan [("Asha", (false, 0%Q)); ("Bela", (true, (6 # 5)%Q))]
         = (None, 1%Q)).
Proof.
  split.
  - split; [|reflexivity]. split_and!.
    + reflexivity.
    + intros [|j] r' d' Hj; simplify_eq/=. apply Qle_refl.
    + intros j r' d' Hlt. lia.
  - split; [|reflexivity]. split_and!.
    + reflexivity.
    + intros [|[|j]] r' d' Hj; simplify_eq/=. apply Qle_refl.
    + intros [|[|j]] r' d' Hlt Hj; simplify_eq/=. lia.
Qed.

(** C9.  The scan never ends with a candidate whose distance is 1.0 or
    more: whoever it ends with matched at a distance strictly below 1.0,
    and among distinct rows a row that matched at 1.0 or more is not the
    one the scan ends with.
    When every candidate that matched has a distance of 1.0 or more, the
    scan ends with nobody, and over a table that is not empty both
    [mark_entry] and [mark_exit] show "No matching member found." *)
Theorem distance_one_or_more_never_selected
    (DeepFace_verify : option image → option image → verify_result)
    (now : datetime) (img : image) (w : world) :
  empty (members_of w) = false →
  let entry_cands :=
    candidates DeepFace_verify "temp_entry.jpg" (members_of w)
      (after (save_temp_entry img w)) in
  let exit_cands :=
    candidates DeepFace_verify "temp_exit.jpg" (members_of w)
      (after (save_temp_exit img w)) in
  (∀ (cands : list (Member * (bool * Q))) row d,
      scan cands = (Some row, d) →
      (d < 1)%Q ∧ ∃ i, cands !! i = Some (row, (true, d)))
  ∧ (∀ (cands : list (Member * (bool * Q))) i row d,
      NoDup (fst <$> cands) →
      cands !! i = Some (row, (true, d)) → (1 <= d)%Q →
      fst (scan cands) ≠ Some row)
  ∧ ((∀ j row d, entry_cands !! j = Some (row, (true, d)) → (1 <= d)%Q) →
      scan entry_cands = (None, 1%Q)
      ∧ shown (mark_entry DeepFace_verify now (Some img) w)
          = [error "No matching member found."])
  ∧ ((∀ j row d, exit_cands !! j = Some (row, (true, d)) → (1 <= d)%Q) →
      scan exit_cands = (None, 1%Q)
      ∧ shown (mark_exit DeepFace_verify now (Some img) w)
          = [error "No matching member found."]).
Proof.
  intros Hmembers entry_cands exit_cands. split_and!.
  - intros cands row d Hscan.
    apply scan_Some in Hscan as (Hd & i & Hi & _). eauto.
  - intros cands i row d Hdup Hi Hd Hscan.
    destruct (scan cands) as [best dbest] eqn:Hpair. simpl in Hscan. subst best.
    apply scan_Some in Hpair as (Hlt & i' & Hi' & _).
    assert (i = i') as <-.
    { apply (NoDup_lookup _ _ _ row Hdup).
      - by rewrite list_lookup_fmap, Hi.
      - by rewrite list_lookup_fmap, Hi'. }
    rewrite Hi in Hi'. simplify_eq. by apply Qle_not_lt in Hd.
  - intros Hall. pose proof (scan_nobody _ Hall) as Hscan.
    split; [done|].
    rewrite mark_entry_eq, Hmembers. fold entry_cands. by rewrite Hscan.
  - intros Hall. pose proof (scan_nobody _ Hall) as Hscan.
    split; [done|].
    rewrite mark_exit_eq, Hmembers. fold exit_cands. by rewrite Hscan.
Qed.

Lemma distance_one_or_more_never_selected_witness :
  empty (members_of one_member) = false
  ∧ shown (mark_entry far_match sample_now (Some "probe") one_member)
      = [error "No matching member found."]
  ∧ shown (mark_exit far_match sample_now (Some "probe") one_member)
      = [error "No matching member found."].
Proof.
  assert (Hmembers : empty (members_of one_member) = false) by reflexivity.
  destruct (distance_one_or_more_never_selected far_match sample_now "probe"
              one_member Hmembers) as (_ & _ & Hentry & Hexit).
  split_and!; [exact Hmembers| |].
  - apply Hentry. intros [|j] row d Hj; vm_compute in Hj; simplify_eq.
    unfold Qle; simpl; lia.
  - apply Hexit. intros [|j] row d Hj; vm_compute in Hj; simplify_eq.
    unfold Qle; simpl; lia.
Defined.

(** C2, as amended.  Over a table that is not empty, [mark_entry] shows
    "No matching member found." exactly when no member is reported as a
    match at a distance strictly below 1.0; when some member is, the first
    and best of the matches is taken and the run goes on with the
    attendance step for that member. *)
Theorem mark_entry_no_match_iff
    (DeepFace_verify : option image → option image → verify_result)
    (now : datetime) (img : image) (w : world) :
  empty (members_of w) = false →
  let w' := after (save_temp_entry img w) in
  let cands := candidates DeepFace_verify "temp_entry.jpg" (members_of w) w' in
  (shown (mark_entry DeepFace_verify now (Some img) w)
     = [error "No matching member found."]
   ↔ ∀ j row d, cands !! j = Some (row, (true, d)) → (1 <= d)%Q)
  ∧ (∀ j row d, cands !! j = Some (row, (true, d)) → (d < 1)%Q →
      ∃ i best dbest,
        first_best cands i best dbest ∧ (dbest < 1)%Q
        ∧ mark_entry DeepFace_verify now (Some img) w
            = entry_record now best w').
Proof.
  intros Hmembers w' cands.
  pose proof (mark_entry_eq DeepFace_verify now img w) as Heq.
  cbv zeta in Heq. rewrite Hmembers in Heq. fold w' cands in Heq.
  split.
  - split.
    + intros Hshown. apply scan_None.
      destruct (scan cands).1 as [best|] eqn:Hscan; [|done].
      rewrite Heq, entry_record_eq in Hshown.
      by destruct (negb _).
    + intros Hall. rewrite Heq, (scan_nobody _ Hall). done.
  - intros j row d Hj Hd.
    destruct (first_best_exists _ _ _ _ Hj) as (i & best & dbest & Hbest).
    assert (Hdbest : (dbest < 1)%Q).
    { destruct Hbest as (_ & Hmin & _).
      apply Qle_lt_trans with d; eauto. }
    exists i, best, dbest. split_and!; [done..|].
    by rewrite Heq, (scan_first_best_below_one _ _ _ _ Hbest Hdbest).
Qed.

Lemma mark_entry_no_match_iff_witness :
  empty (members_of one_member) = false
  ∧ shown (mark_entry far_match sample_now (Some "probe") one_member)
      = [error "No matching member found."].
Proof.
  assert (Hmembers : empty (members_of one_member) = false) by reflexivity.
  split; [exact Hmembers|].
  apply (mark_entry_no_match_iff far_match sample_now "probe" one_member
           Hmembers).
  intros [|j] row d Hj; vm_compute in Hj; simplify_eq.
  unfold Qle; simpl; lia.
Defined.

(** C2, as the claim has it, fails: the one member is reported as a match
    and the page shows "No matching member found.", both when the
    dictionary of the verifier has no distance, so that the distance is
    the 1.0 of [result.get], and when the distance is 1.2. *)
Lemma mark_entry_match_reported_yet_not_found :
  empty (members_of one_member) = false
  ∧ candidates match_without_distance "temp_entry.jpg"
      (members_of one_member) (after (save_temp_entry "probe" one_member))
    = [(Asha, (true, 1%Q))]
  ∧ shown (mark_entry match_without_distance sample_now (Some "probe")
             one_member)
    = [error "No matching member found."]
  ∧ candidates far_match "temp_entry.jpg"
      (members_of one_member) (after (save_temp_entry "probe" one_member))
    = [(Asha, (true, (6 # 5)%Q))]
  ∧ shown (mark_entry far_match sample_now (Some "probe") one_member)
    = [error "No matching member found."].
Proof. by vm_compute. Qed.

(** ** Entry and exit records *)

Lemma mask_true idstr today r :
  mask idstr today r = true ↔ att_ID r = idstr ∧ Date r = today.
Proof.
  unfold mask. rewrite andb_true_iff, !bool_decide_eq_true. done.
Qed.

Lemma is_open_true idstr today r :
  is_open idstr today r = true ↔
    att_ID r = idstr ∧ Date r = today
    ∧ (ExitTime r = None ∨ ExitTime r = Some EmptyString).
Proof.
  unfold is_open, no_exit. rewrite andb_true_iff, mask_true.
  destruct (ExitTime r) as [t|].
  - rewrite bool_decide_eq_true. intuition (auto; congruence).
  - intuition auto.
Qed.

(** C3.  When the attendance table holds a record of the matched member
    for today, [mark_entry] shows "Entry already marked today." and leaves
    the attendance file, and the two member files, as they were. *)
Theorem mark_entry_already_marked
    (DeepFace_verify : option image → option image → verify_result)
    (now : datetime) (img : image) (w : world)
    (matched_row : Member) (r : Attendance) :
  empty (members_of w) = false →
  fst (scan (candidates DeepFace_verify "temp_entry.jpg" (members_of w)
               (after (save_temp_entry img w)))) = Some matched_row →
  r ∈ rows (attendance_of w) →
  att_ID r = str (ID matched_row) →
  Date r = strftime_date now →
  let res := mark_entry DeepFace_verify now (Some img) w in
  shown res = [warning "Entry already marked today."]
  ∧ value res = inr tt
  ∧ attendance_csv (after res) = attendance_csv w
  ∧ members_csv (after res) = members_csv w
  ∧ deleted_members_csv (after res) = deleted_members_csv w.
Proof.
  intros Hmembers Hscan Hr Hid Hdate res. unfold res.
  rewrite mark_entry_eq, Hmembers, Hscan, entry_record_eq.
  set (w' := after (save_temp_entry img w)).
  assert (Hatt : attendance_of w' = attendance_of w) by done.
  rewrite Hatt.
  assert (Hexists :
    empty (select (mask (str (ID matched_row)) (strftime_date now))
             (attendance_of w)) = false).
  { rewrite empty_rows by apply columns_attendance_of.
    apply bool_decide_eq_false. simpl. intros Hnil.
    assert (Hin : r ∈ filter
      (λ r, mask (str (ID matched_row)) (strftime_date now) r = true)
      (rows (attendance_of w))).
    { apply list_elem_of_filter. split; [|done]. by apply mask_true. }
    rewrite Hnil in Hin. by apply not_elem_of_nil in Hin. }
  rewrite Hexists. done.
Qed.

Lemma mark_entry_already_marked_witness :
  shown (mark_entry near_match sample_now (Some "probe") one_member_inside)
    = [warning "Entry already marked today."]
  ∧ attendance_csv
      (after (mark_entry near_match sample_now (Some "probe")
                one_member_inside))
    = attendance_csv one_member_inside.
Proof.
  assert (Hr : Asha_entry ∈ rows (attendance_of one_member_inside)).
  { vm_compute. apply list_elem_of_here. }
  destruct (mark_entry_already_marked near_match sample_now "probe"
              one_member_inside Asha Asha_entry
              eq_refl eq_refl Hr eq_refl eq_refl) as (Hshown & _ & Hatt & _).
  split; [exact Hshown|exact Hatt].
Defined.

Lemma na_empty_idemp r : na_empty (na_empty r) = na_empty r.
Proof. by destruct r as [? ? ? ? [[|c t]|] ?]. Qed.

Lemma rows_attendance_of_read w :
  na_empty <$> rows (attendance_of w) = rows (attendance_of w).
Proof.
  unfold attendance_of. destruct (read_csv (attendance_csv w)); [done|].
  simpl. rewrite <- list_fmap_compose. apply list_fmap_ext.
  intros i r _. apply na_empty_idemp.
Qed.

Lemma strftime_time_filled now : strftime_time now ≠ EmptyString.
Proof. done. Qed.

Lemma na_empty_close_record time r :
  time ≠ EmptyString →
  na_empty (close_record time r) = close_record time (na_empty r).
Proof. by destruct time. Qed.

Lemma no_exit_close_record time r :
  time ≠ EmptyString → no_exit (close_record time r) = false.
Proof. intros H. unfold no_exit. simpl. by apply bool_decide_eq_false. Qed.

Lemma attendance_of_save_attendance df w :
  columns df ≠ [] →
  attendance_of (after (save_attendance df w))
    = {| columns := columns df; rows := na_empty <$> rows df |}.
Proof.
  intros H. unfold attendance_of, save_attendance. simpl.
  by rewrite read_csv_to_csv.
Qed.



(** ** Registration *)

Section Registration.
Variable DeepFace_verify : option image → option image → verify_result.
Variable smtp : email → option string.

Lemma members_of_save_members df w :
  columns df ≠ [] → members_of (after (save_members df w)) = df.
Proof.
  intros H. unfold members_of, save_members. simpl.
  by rewrite read_csv_to_csv.
Qed.

Lemma new_id_count (members : DataFrame Member) :
  columns members ≠ [] →
  (if negb (empty members) then len members + 1 else 1) = len members + 1.
Proof.
  intros Hc. rewrite empty_rows by done. unfold len.
  destruct (bool_decide (rows members = [])) eqn:E; [|done].
  apply bool_decide_eq_true in E. by rewrite E.
Qed.

(** A registration that passes the check adds one row, whose ID is the
    number of rows plus one. *)
Lemma register_member_rows name email_ mobile membership fee upload w :
  all_filled name email_ mobile membership (Some upload) = true →
  writable name = true →
  let new_id := len (members_of w) + 1 in
  let res :=
    register_member smtp name email_ mobile membership fee (Some upload) w in
  value res = inr tt
  ∧ (∃ errors : list msg,
        shown res
          = (errors ++ [success ("Member Registered! ID: " +:+ str new_id)])%list)
  ∧ columns (members_of (after res))
      = (columns (members_of w)
           ++ filter (λ c, c ∉ columns (members_of w)) members_columns)%list
  ∧ rows (members_of (after res))
      = (rows (members_of w)
           ++ [new_member new_id name email_ mobile membership fee
                 (member_image_path new_id name)])%list
  ∧ attendance_csv (after res) = attendance_csv w
  ∧ deleted_members_csv (after res) = deleted_members_csv w.
Proof.
  intros Hall Hname new_id res. unfold res.
  rewrite register_member_eq by done.
  rewrite new_id_count by apply columns_members_of. fold new_id.
  match goal with
  | |- context [mail_then_success ?s ?t ?sub ?b ?txt ?w1] =>
      destruct (mail_then_success_spec s t sub b txt w1)
        as ((Hm & Ha & Hd & _) & Hv & Hs);
      set (w2 := w1) in *
  end.
  assert (Hw2 : members_of w2 =
    concat (members_of w)
      {| columns := members_columns;
         rows := [new_member new_id name email_ mobile membership fee
                    (member_image_path new_id name)] |}).
  { unfold w2. apply members_of_save_members. simpl.
    pose proof (columns_members_of w) as Hc.
    by destruct (columns (members_of w)). }
  split_and!; [done|done| | |by rewrite Ha|by rewrite Hd].
  - unfold members_of at 1. rewrite Hm. fold (members_of w2).
    by rewrite Hw2.
  - unfold members_of at 1. rewrite Hm. fold (members_of w2).
    by rewrite Hw2.
Qed.

(** The three ways a registration ends. *)
Lemma register_member_cases name email_ mobile membership fee photo w :
  (∃ upload, photo = Some upload
     ∧ all_filled name email_ mobile membership (Some upload) = true
     ∧ writable name = true)
  ∨ (all_filled name email_ mobile membership photo = false
     ∧ register_member smtp name email_ mobile membership fee photo w
       = Out w [warning "Please fill all fields and capture image."]
           (inr tt))
  ∨ (all_filled name email_ mobile membership photo = true
     ∧ writable name = false
     ∧ ∃ e, register_member smtp name email_ mobile membership fee photo w
            = Out w [] (inl e)).
Proof.
  destruct (all_filled name email_ mobile membership photo) eqn:Hall.
  - destruct photo as [upload|].
    + destruct (writable name) eqn:Hname.
      * left. eauto.
      * right. right. split_and!; [done..|].
        by apply register_member_raises.
    + unfold all_filled in Hall. by rewrite andb_false_r in Hall.
  - right. left. split; [done|]. by apply register_member_rejected.
Qed.

(** What no registration touches, however it ends. *)
Lemma register_member_frame name email_ mobile membership fee photo w :
  let res := register_member smtp name email_ mobile membership fee photo w in
  attendance_csv (after res) = attendance_csv w
  ∧ deleted_members_csv (after res) = deleted_members_csv w
  ∧ (member_images (after res) = member_images w
     ∨ ∃ path img,
         member_images (after res) = <[path := img]> (member_images w))
  ∧ (columns (members_of w) = members_columns →
     columns (members_of (after res)) = members_columns).
Proof.
  intros res. unfold res.
  destruct (register_member_cases name email_ mobile membership fee photo w)
    as [(upload & -> & Hall & Hname)|[[_ ->]|(_ & _ & e & ->)]].
  - destruct (register_member_rows _ _ _ _ fee _ w Hall Hname)
      as (_ & _ & Hc & _ & Ha & Hd).
    split_and!; [done|done| |].
    + right. rewrite register_member_eq by done. cbv zeta.
      match goal with
      | |- context [mail_then_success ?s ?t ?sub ?b ?txt ?w1] =>
          destruct (mail_then_success_spec s t sub b txt w1)
            as ((_ & _ & _ & Hi & _) & _)
      end.
      rewrite Hi. simpl. eauto.
    + intros Hw. rewrite Hc. by rewrite Hw.
  - split_and!; auto.
  - split_and!; auto.
Qed.


Lemma session_snoc actions a w :
  session DeepFace_verify smtp (actions ++ [a]) w
    = after (script DeepFace_verify smtp a
               (session DeepFace_verify smtp actions w)).
Proof. unfold session. by rewrite foldl_snoc. Qed.


End Registration.






(** ** Delete and reset *)

Section Delete.
Variable DeepFace_verify : option image → option image → verify_result.
Variable smtp : email → option string.

Lemma mail_then_success_attendance to_ subject_ body_ text w :
  attendance_csv (after (mail_then_success smtp to_ subject_ body_ text w))
    = attendance_csv w.
Proof.
  by destruct (mail_then_success_spec smtp to_ subject_ body_ text w)
    as ((_ & H & _) & _).
Qed.

Lemma mail_then_success_deleted to_ subject_ body_ text w :
  deleted_members_csv
    (after (mail_then_success smtp to_ subject_ body_ text w))
    = deleted_members_csv w.
Proof.
  by destruct (mail_then_success_spec smtp to_ subject_ body_ text w)
    as ((_ & _ & H & _) & _).
Qed.

Lemma selected_member_eq selected_id w :
  let members := members_of w in
  selected_member selected_id w =
    if empty members then
      Out w [warning "No members registered yet."] (inr None)
    else
      match
        rows (select (λ r, bool_decide (str (ID r) = selected_id)) members)
      with
      | [] => Out w [] (inl IndexError)
      | member :: _ => Out w [] (inr (Some (members, member)))
      end.
Proof.
  intros members. unfold selected_member.
  rewrite (bind_silent _ _ _ members) by (by rewrite load_members_eq).
  rewrite load_members_eq. simpl. destruct (empty members); [done|].
  unfold iloc0. rewrite bind_eq. simpl. by destruct (filter _ _).
Qed.

Lemma update_member_eq selected_id name email_ mobile membership fee w :
  let members := members_of w in
  update_member smtp selected_id name email_ mobile membership fee w =
    if empty members then
      Out w [warning "No members registered yet."] (inr tt)
    else
      match
        rows (select (λ r, bool_decide (str (ID r) = selected_id)) members)
      with
      | [] => Out w [] (inl IndexError)
      | member :: _ =>
          match int selected_id with
          | None => Out w [] (inl ValueError)
          | Some k =>
              mail_then_success smtp email_ "Gym Details Updated"
                (update_body name membership fee)
                "Member updated successfully."
                (after (save_members
                          {| columns := columns members;
                             rows := update_row k name email_ mobile
                                       membership fee <$> rows members |} w))
          end
      end.
Proof.
  intros members. unfold update_member.
  rewrite bind_eq, selected_member_eq. fold members.
  destruct (empty members); [done|].
  destruct (rows (select _ members)) as [|member rest]; [done|]. simpl.
  unfold int_of. rewrite bind_eq.
  destruct (int selected_id) as [k|]; [|done]. simpl.
  rewrite bind_eq. simpl. apply out_eta.
Qed.

Lemma delete_member_attendance selected_id w :
  attendance_csv (after (delete_member smtp selected_id w))
    = attendance_csv w.
Proof.
  rewrite delete_member_eq. cbv zeta.
  destruct (empty (members_of w)); [done|].
  destruct (rows (select _ (members_of w))) as [|member rest]; [done|].
  destruct (int selected_id) as [k|]; [|done].
  destruct (negb _).
  - destruct (read_csv (deleted_members_csv w)) as [e|archive]; [done|].
    by rewrite mail_then_success_attendance.
  - by rewrite mail_then_success_attendance.
Qed.

(** With the archive file as the script itself leaves it, a delete stops
    at the read of line 158 and the archive stays without a record. *)
Lemma delete_member_no_header selected_id w :
  deleted_members_csv w = no_header →
  deleted_members_csv (after (delete_member smtp selected_id w)) = no_header.
Proof.
  intros Hw. rewrite delete_member_eq. cbv zeta.
  destruct (empty (members_of w)); [done|].
  destruct (rows (select _ (members_of w))) as [|member rest]; [done|].
  destruct (int selected_id) as [k|]; [|done].
  destruct (negb _).
  - by rewrite Hw.
  - by rewrite mail_then_success_deleted.
Qed.

Lemma page_keeps_no_header a w :
  deleted_members_csv w = no_header →
  deleted_members_csv (after (page DeepFace_verify smtp a w)) = no_header.
Proof.
  intros Hw. destruct a; cbn [page].
  - destruct (register_member_frame smtp name email_ mobile membership fee
                photo w) as (_ & Hd & _).
    by rewrite Hd.
  - rewrite update_member_eq. cbv zeta.
    destruct (empty (members_of w)); [done|].
    destruct (rows (select _ (members_of w))) as [|member rest]; [done|].
    destruct (int selected_id) as [k|]; [|done].
    by rewrite mail_then_success_deleted.
  - by apply delete_member_no_header.
  - destruct photo as [img|]; [|done].
    rewrite mark_entry_eq. cbv zeta.
    destruct (empty (members_of w)); [done|].
    destruct (scan _).1 as [row|]; [|done].
    rewrite entry_record_eq. cbv zeta. by destruct (negb _).
  - destruct photo as [img|]; [|done].
    rewrite mark_exit_eq. cbv zeta.
    destruct (empty (members_of w)); [done|].
    destruct (scan _).1 as [row|]; [|done].
    rewrite exit_record_eq. cbv zeta.
    by destruct (list_find _ _) as [[idx r]|].
  - unfold view_members. rewrite bind_eq, load_members_eq. simpl.
    by destruct (empty (members_of w)).
  - unfold view_attendance. rewrite bind_eq, load_attendance_eq. simpl.
    by destruct (empty (attendance_of w)).
  - done.
Qed.

(** From a machine on which the script never ran, whatever is done on the
    pages, the archive file never gets a column line, let alone a record:
    it is created empty, read before every write, and the read fails. *)
Lemma archive_never_written actions :
  actions ≠ [] →
  deleted_members_csv (session DeepFace_verify smtp actions fresh)
    = no_header.
Proof.
  induction actions as [|a actions IH] using rev_ind; [done|]. intros _.
  rewrite session_snoc, script_eq. apply page_keeps_no_header.
  destruct actions as [|a' actions']; [done|].
  rewrite setup_eq. cbn [after deleted_members_csv].
  by rewrite IH.
Qed.

(** With an archive file that has its column line, and an ID that one
    member only has, the delete does what it is meant to do. *)
Lemma delete_member_archives (X : Member) before later header body w :
  members_csv w = table members_columns (before ++ X :: later) →
  (∀ Y, Y ∈ before ++ later → ID Y ≠ ID X) →
  deleted_members_csv w = table (header :: members_columns) body →
  let res := delete_member smtp (str (ID X)) w in
  value res = inr tt
  ∧ rows (members_of (after res)) = (before ++ later)%list
  ∧ ∃ header', deleted_members_csv (after res)
                 = table header' (body ++ [X]).
Proof.
  intros Hm Huniq Hd res. unfold res. rewrite delete_member_eq.
  assert (Hmembers : members_of w =
    {| columns := members_columns; rows := before ++ X :: later |}).
  { unfold members_of. by rewrite Hm. }
  rewrite Hmembers. cbv zeta.
  assert (Hne : empty {| columns := members_columns;
                         rows := (before ++ X :: later)%list |} = false).
  { rewrite empty_rows by done. apply bool_decide_eq_false. simpl.
    by destruct before. }
  rewrite Hne.
  assert (Hkeep : ∀ (P : Member → bool),
    P X = true → (∀ Y, Y ∈ before ++ later → P Y = false) →
    filter (λ r, P r = true) (before ++ X :: later) = [X]
    ∧ filter (λ r, negb (P r) = true) (before ++ X :: later)
        = (before ++ later)%list).
  { intros P HX HY.
    assert (Hnone : ∀ l, (∀ Y, Y ∈ l → P Y = false) →
      filter (λ r, P r = true) l = []
      ∧ filter (λ r, negb (P r) = true) l = l).
    { induction l as [|Y l IHl]; [done|]. intros Hl.
      rewrite !filter_cons.
      rewrite (Hl Y) by apply list_elem_of_here. simpl.
      destruct IHl as [-> ->].
      - intros Z HZ. apply Hl. by apply list_elem_of_further.
      - done. }
    destruct (Hnone before) as [Hb1 Hb2].
    { intros Y HY'. apply HY. apply elem_of_app. by left. }
    destruct (Hnone later) as [Hl1 Hl2].
    { intros Y HY'. apply HY. apply elem_of_app. by right. }
    rewrite !filter_app, !filter_cons, HX, Hb1, Hb2, Hl1, Hl2. simpl.
    done. }
  destruct (Hkeep (λ r, bool_decide (str (ID r) = str (ID X)))) as [Hsel _].
  { by apply bool_decide_eq_true. }
  { intros Y HY. apply bool_decide_eq_false. intros Heq.
    apply str_inj in Heq. by apply (Huniq Y). }
  destruct (Hkeep (has_ID (ID X))) as [Hdel Hlive].
  { by apply bool_decide_eq_true. }
  { intros Y HY. apply bool_decide_eq_false. by apply Huniq. }
  cbn [select rows columns]. rewrite Hsel, int_str.
  unfold select. cbn [rows columns]. rewrite Hdel, Hlive, Hd.
  assert (He : empty {| columns := members_columns; rows := [X] |} = false)
    by done.
  rewrite He. cbn [negb read_csv].
  match goal with
  | |- context [mail_then_success ?s ?t ?sub ?b ?txt ?w1] =>
      destruct (mail_then_success_spec s t sub b txt w1)
        as ((Hm' & _ & Hd' & _) & Hv & _)
  end.
  split_and!.
  - done.
  - unfold members_of. rewrite Hm'. done.
  - rewrite Hd'. simpl. eauto.
Qed.

End Delete.

(** C6.  On a machine where the script starts from nothing, one member is
    registered and then deleted.  The member leaves the live table, and
    the run stops at the read of the archive file, which has no column
    line: no record reaches the archive, the mail is not sent, and the
    page shows no "Member deleted successfully." *)
Theorem delete_after_first_registration_archives_nothing
    (DeepFace_verify : option image → option image → verify_result)
    (smtp : email → option string) :
  let joined :=
    after (script DeepFace_verify smtp
             (RegisterMember "Asha" "asha@example.org" "9876543210" Monthly
                500 (Some "asha.jpg")) fresh) in
  let res := script DeepFace_verify smtp (DeleteMember "1") joined in
  rows (members_of joined) = [Asha]
  ∧ deleted_members_csv joined = no_header
  ∧ value res = inl EmptyDataError
  ∧ shown res = []
  ∧ rows (members_of (after res)) = []
  ∧ deleted_members_csv (after res) = no_header
  ∧ outbox (after res) = outbox joined.
Proof.
  intros joined res. unfold res, joined. clear res joined.
  rewrite !script_eq. cbn [page].
  rewrite register_member_eq by done.
  unfold mail_then_success, send_email. rewrite bind_eq.
  destruct (smtp _) as [e|].
  - vm_compute. repeat split.
  - vm_compute. repeat split.
Qed.

(** C8.  A delete never writes the attendance file: whatever ID is chosen
    and however the run ends, the file is as before, and so is the table
    that [load_attendance] gives when the whole script is run. *)
Theorem delete_member_keeps_attendance
    (DeepFace_verify : option image → option image → verify_result)
    (smtp : email → option string) (selected_id : string) (w : world) :
  attendance_csv (after (delete_member smtp selected_id w))
    = attendance_csv w
  ∧ attendance_of
      (after (script DeepFace_verify smtp (DeleteMember selected_id) w))
    = attendance_of w.
Proof.
  split.
  - apply delete_member_attendance.
  - rewrite script_eq. cbn [page]. unfold attendance_of at 1.
    rewrite delete_member_attendance.
    apply attendance_of_setup.
Qed.

(** C7, as amended.  [reset_db] leaves each of the three table files as
    the file of a frame without columns, so without a column line and
    without a record, and leaves no photo in [member_images/]; after it
    [load_members] and [load_attendance] give tables with no rows and with
    the columns the script names. *)
Theorem reset_db_clears (w : world) :
  let res := reset_db w in
  value res = inr tt
  ∧ shown res = [success "All data reset successfully!"]
  ∧ members_csv (after res) = no_header
  ∧ attendance_csv (after res) = no_header
  ∧ deleted_members_csv (after res) = no_header
  ∧ member_images (after res) = ∅
  ∧ members_of (after res) = DataFrame_columns members_columns
  ∧ attendance_of (after res) = DataFrame_columns attendance_columns.
Proof. rewrite reset_db_eq. by repeat split. Qed.

(** C7, as the claim has it, fails: after the reset no file has its column
    line, and the read that the delete page makes of the archive file
    raises. *)
Lemma reset_db_drops_column_lines :
  let w := after (reset_db one_member_inside) in
  (¬ ∃ body, members_csv w = table members_columns body)
  ∧ (¬ ∃ body, attendance_csv w = table attendance_columns body)
  ∧ (¬ ∃ body, deleted_members_csv w = table members_columns body)
  ∧ read_csv (deleted_members_csv w) = inl EmptyDataError.
Proof.
  split_and!; [intros [body H]; discriminate H..|reflexivity].
Qed.

(** The IDs after a delete: the count plus one is an ID that is in use. *)
Lemma id_reused_after_delete :
  let w :=
    session near_match mail_goes_out
      [RegisterMember "Asha" "asha@example.org" "9876543210" Monthly 500
         (Some "asha.jpg");
       RegisterMember "Bela" "bela@example.org" "9876500000" Yearly 4000
         (Some "bela.jpg");
       DeleteMember "1";
       RegisterMember "Chand" "chand@example.org" "9876511111" Quarterly 0
         (Some "chand.jpg")] fresh in
  ID <$> rows (members_of w) = [2; 2].
Proof. reflexivity. Qed.

(** * Further properties of the script *)

(** ** Files and tables *)

(** The set-up creates each missing table file from a frame without
    columns and writes no file that exists; it changes neither table as the
    script loads it, and running it again changes nothing. *)
Theorem setup_keeps_tables (w : world) :
  let w' := after (setup w) in
  value (setup w) = inr tt
  ∧ shown (setup w) = []
  ∧ (members_csv w ≠ no_file → members_csv w' = members_csv w)
  ∧ (attendance_csv w ≠ no_file → attendance_csv w' = attendance_csv w)
  ∧ (deleted_members_csv w ≠ no_file →
       deleted_members_csv w' = deleted_members_csv w)
  ∧ (members_csv w = no_file → members_csv w' = no_header)
  ∧ (attendance_csv w = no_file → attendance_csv w' = no_header)
  ∧ (deleted_members_csv w = no_file → deleted_members_csv w' = no_header)
  ∧ members_csv w' ≠ no_file
  ∧ attendance_csv w' ≠ no_file
  ∧ deleted_members_csv w' ≠ no_file
  ∧ members_of w' = members_of w
  ∧ attendance_of w' = attendance_of w
  ∧ member_images w' = member_images w
  ∧ after (setup w') = w'.
Proof.
  intros w'. unfold w'. rewrite setup_eq. cbn [after value shown].
  split_and!; try done.
  - by destruct (members_csv w).
  - by destruct (attendance_csv w).
  - by destruct (deleted_members_csv w).
  - by intros ->.
  - by intros ->.
  - by intros ->.
  - by destruct (members_csv w).
  - by destruct (attendance_csv w).
  - by destruct (deleted_members_csv w).
  - unfold members_of. simpl. by destruct (members_csv w).
  - unfold attendance_of. simpl. by destruct (attendance_csv w).
  - rewrite setup_eq. simpl.
    by destruct (members_csv w), (attendance_csv w), (deleted_members_csv w).
Qed.

(** ** The attendance pages *)

Lemma filter_nil_not {B} (P : B → bool) (l : list B) :
  (∀ x, x ∈ l → P x = false) → filter (λ x, P x = true) l = [].
Proof.
  intros H. destruct (filter _ l) as [|x k] eqn:E; [done|].
  assert (Hx : x ∈ filter (λ x, P x = true) l).
  { rewrite E. apply list_elem_of_here. }
  apply list_elem_of_filter in Hx as [Hp Hx]. by rewrite (H x Hx) in Hp.
Qed.

Lemma mask_att_key idstr today r :
  mask idstr today r = true ↔ att_key r = (idstr, today).
Proof.
  rewrite mask_true. unfold att_key. split.
  - by intros [-> ->].
  - by intros [= -> ->].
Qed.

Lemma att_key_na_empty r : att_key (na_empty r) = att_key r.
Proof. done. Qed.

Lemma att_key_close_record time r : att_key (close_record time r) = att_key r.
Proof. done. Qed.

Lemma entry_record_blocked now row w r :
  r ∈ rows (attendance_of w) →
  att_key r = (str (ID row), strftime_date now) →
  entry_record now row w
    = Out w [warning "Entry already marked today."] (inr tt).
Proof.
  intros Hr Hkey. rewrite entry_record_eq. cbv zeta.
  assert (Hexists :
    empty (select (mask (str (ID row)) (strftime_date now))
             (attendance_of w)) = false).
  { rewrite empty_rows by apply columns_attendance_of.
    apply bool_decide_eq_false. simpl. intros Hnil.
    assert (Hin : r ∈ filter
      (λ r, mask (str (ID row)) (strftime_date now) r = true)
      (rows (attendance_of w))).
    { apply list_elem_of_filter. split; [|done]. by apply mask_att_key. }
    rewrite Hnil in Hin. by apply not_elem_of_nil in Hin. }
  by rewrite Hexists.
Qed.

Lemma entry_record_new now row w :
  (∀ r, r ∈ rows (attendance_of w) →
        att_key r ≠ (str (ID row), strftime_date now)) →
  let res := entry_record now row w in
  shown res = [success ("Entry marked for " +:+ Name row)]
  ∧ value res = inr tt
  ∧ rows (attendance_of (after res))
      = rows (attendance_of w) ++ [entry_row now row]
  ∧ members_csv (after res) = members_csv w
  ∧ deleted_members_csv (after res) = deleted_members_csv w
  ∧ member_images (after res) = member_images w
  ∧ temp_entry_jpg (after res) = temp_entry_jpg w
  ∧ temp_exit_jpg (after res) = temp_exit_jpg w
  ∧ outbox (after res) = outbox w.
Proof.
  intros Hnew res. unfold res. rewrite entry_record_eq. cbv zeta.
  assert (Hnone :
    empty (select (mask (str (ID row)) (strftime_date now))
             (attendance_of w)) = true).
  { rewrite empty_rows by apply columns_attendance_of.
    apply bool_decide_eq_true. simpl. apply filter_nil_not.
    intros r Hr. destruct (mask _ _ r) eqn:E; [|done].
    apply mask_att_key in E. by apply Hnew in Hr. }
  rewrite Hnone. cbn [negb after shown value].
  split_and!; try done.
  rewrite attendance_of_save_attendance.
  - cbn [rows concat]. rewrite fmap_app, rows_attendance_of_read. done.
  - cbn [columns concat]. pose proof (columns_attendance_of w) as Hc.
    by destruct (columns (attendance_of w)).
Qed.

Lemma exit_record_none now row w :
  (∀ r, r ∈ rows (attendance_of w) →
        is_open (str (ID row)) (strftime_date now) r = false) →
  exit_record now row w
    = Out w [warning "No open entry found for today."] (inr tt).
Proof.
  intros Hnone. rewrite exit_record_eq. cbv zeta.
  assert (Hfind : list_find
    (λ r, is_open (str (ID row)) (strftime_date now) r = true)
    (rows (attendance_of w)) = None).
  { apply list_find_None, Forall_forall. intros r Hr.
    rewrite (Hnone r Hr). done. }
  by rewrite Hfind.
Qed.

Lemma exit_record_open now row w idx r :
  rows (attendance_of w) !! idx = Some r →
  is_open (str (ID row)) (strftime_date now) r = true →
  (∀ j r', (j < idx)%nat → rows (attendance_of w) !! j = Some r' →
           is_open (str (ID row)) (strftime_date now) r' = false) →
  let res := exit_record now row w in
  shown res = [success ("Exit marked for " +:+ Name row)]
  ∧ value res = inr tt
  ∧ rows (attendance_of (after res))
      = alter (close_record (strftime_time now)) idx (rows (attendance_of w))
  ∧ members_csv (after res) = members_csv w
  ∧ deleted_members_csv (after res) = deleted_members_csv w
  ∧ member_images (after res) = member_images w
  ∧ temp_entry_jpg (after res) = temp_entry_jpg w
  ∧ temp_exit_jpg (after res) = temp_exit_jpg w
  ∧ outbox (after res) = outbox w.
Proof.
  intros Hidx Hopen Hfirst res. unfold res. rewrite exit_record_eq. cbv zeta.
  assert (Hfind : list_find
    (λ r, is_open (str (ID row)) (strftime_date now) r = true)
    (rows (attendance_of w)) = Some (idx, r)).
  { apply list_find_Some. split_and!; [done..|].
    intros j r' Hj Hlt. rewrite (Hfirst j r' Hlt Hj). done. }
  rewrite Hfind. cbn [after shown value].
  split_and!; try done.
  rewrite attendance_of_save_attendance by apply columns_attendance_of.
  cbn [rows columns].
  rewrite (list_fmap_alter na_empty (close_record (strftime_time now))
             (close_record (strftime_time now))).
  - by rewrite rows_attendance_of_read.
  - apply Forall_forall. intros r' _.
    apply na_empty_close_record, strftime_time_filled.
Qed.

(** Either way the exit handler ends, the rows of the table make one of
    the steps. *)
Lemma exit_record_step now row w :
  attendance_step (rows (attendance_of w))
    (rows (attendance_of (after (exit_record now row w)))).
Proof.
  destruct (list_find
    (λ r, is_open (str (ID row)) (strftime_date now) r = true)
    (rows (attendance_of w))) as [[idx r]|] eqn:Hfind.
  - apply list_find_Some in Hfind as (Hidx & Hopen & Hfirst).
    destruct (exit_record_open now row w idx r Hidx Hopen)
      as (_ & _ & -> & _).
    { intros j r' Hlt Hj. apply not_true_is_false. eauto. }
    apply attendance_closed with r; [done| |apply strftime_time_filled].
    unfold is_open in Hopen. by apply andb_true_iff in Hopen as [_ ?].
  - rewrite exit_record_none; [constructor|].
    apply list_find_None in Hfind.
    intros r Hr. apply not_true_is_false.
    by apply (proj1 (Forall_forall _ _) Hfind).
Qed.

Lemma entry_record_step now row w :
  attendance_step (rows (attendance_of w))
    (rows (attendance_of (after (entry_record now row w)))).
Proof.
  destruct (decide (Exists
    (λ r, att_key r = (str (ID row), strftime_date now))
    (rows (attendance_of w)))) as [Hex|Hno].
  - apply Exists_exists in Hex as (r & Hr & Hkey).
    rewrite (entry_record_blocked now row w r Hr Hkey). constructor.
  - destruct (entry_record_new now row w) as (_ & _ & -> & _).
    + intros r Hr Hkey. apply Hno, Exists_exists. eauto.
    + apply attendance_entered. intros r Hr Hkey.
      apply Hno, Exists_exists. eauto.
Qed.

Lemma attendance_of_same_file w w' :
  attendance_csv w' = attendance_csv w → attendance_of w' = attendance_of w.
Proof. intros H. unfold attendance_of. by rewrite H. Qed.

Lemma members_of_same_file w w' :
  members_csv w' = members_csv w → members_of w' = members_of w.
Proof. intros H. unfold members_of. by rewrite H. Qed.

Section Pages.
Variable DeepFace_verify : option image → option image → verify_result.
Variable smtp : email → option string.

Lemma register_member_attendance name email_ mobile membership fee photo w :
  attendance_csv
    (after (register_member smtp name email_ mobile membership fee photo w))
    = attendance_csv w.
Proof.
  by destruct (register_member_frame smtp name email_ mobile membership fee
                 photo w) as (Ha & _).
Qed.

Lemma update_member_attendance selected_id name email_ mobile membership fee
    w :
  attendance_csv
    (after (update_member smtp selected_id name email_ mobile membership fee
              w))
    = attendance_csv w.
Proof.
  rewrite update_member_eq. cbv zeta.
  destruct (empty (members_of w)); [done|].
  destruct (rows (select _ (members_of w))) as [|member rest]; [done|].
  destruct (int selected_id) as [k|]; [|done].
  by rewrite mail_then_success_attendance.
Qed.

Lemma page_attendance_step a w :
  is_reset a = false →
  attendance_step (rows (attendance_of w))
    (rows (attendance_of (after (page DeepFace_verify smtp a w)))).
Proof.
  intros Ha. destruct a; cbn [page]; try discriminate Ha.
  - rewrite (attendance_of_same_file w (after _))
      by apply register_member_attendance.
    constructor.
  - rewrite (attendance_of_same_file w (after _))
      by apply update_member_attendance.
    constructor.
  - rewrite (attendance_of_same_file w (after _))
      by apply delete_member_attendance.
    constructor.
  - destruct photo as [img|]; [|constructor].
    rewrite mark_entry_eq. cbv zeta.
    destruct (empty (members_of w)); [constructor|].
    destruct (scan _).1 as [row|]; [|constructor].
    apply (entry_record_step now row (after (save_temp_entry img w))).
  - destruct photo as [img|]; [|constructor].
    rewrite mark_exit_eq. cbv zeta.
    destruct (empty (members_of w)); [constructor|].
    destruct (scan _).1 as [row|]; [|constructor].
    apply (exit_record_step now row (after (save_temp_exit img w))).
  - unfold view_members. rewrite bind_eq, load_members_eq. simpl.
    destruct (empty (members_of w)); constructor.
  - unfold view_attendance. rewrite bind_eq, load_attendance_eq. simpl.
    destruct (empty (attendance_of w)); constructor.
Qed.

Lemma script_attendance_step a w :
  is_reset a = false →
  attendance_step (rows (attendance_of w))
    (rows (attendance_of (after (script DeepFace_verify smtp a w)))).
Proof.
  intros Ha. rewrite script_eq, <- (attendance_of_setup w).
  by apply page_attendance_step.
Qed.

Lemma script_reset_attendance w :
  rows (attendance_of (after (script DeepFace_verify smtp ResetDB w))) = [].
Proof. by rewrite script_eq. Qed.

End Pages.

Lemma attendance_step_keys old new :
  attendance_step old new →
  NoDup (att_key <$> old) → NoDup (att_key <$> new).
Proof.
  intros [|idx r time Hidx Hopen Htime|added Hfresh] Hold.
  - done.
  - rewrite (list_fmap_alter att_key (close_record time) id).
    + by rewrite list_alter_id.
    + by apply Forall_forall.
  - rewrite fmap_app. apply NoDup_app. split_and!.
    + done.
    + intros key (r & -> & Hr)%list_elem_of_fmap Hin.
      apply list_elem_of_singleton in Hin. by apply (Hfresh r).
    + apply NoDup_singleton.
Qed.

Lemma attendance_step_stays old new :
  attendance_step old new →
  att_entry <$> old `prefix_of` att_entry <$> new
  ∧ ∀ i r, old !! i = Some r → no_exit r = false → new !! i = Some r.
Proof.
  intros [|idx r0 time Hidx Hopen Htime|added Hfresh].
  - done.
  - split.
    + rewrite (list_fmap_alter att_entry (close_record time) id).
      * by rewrite list_alter_id.
      * by apply Forall_forall.
    + intros i r Hi Hclosed. destruct (decide (idx = i)) as [->|Hne].
      * rewrite Hidx in Hi. simplify_eq. congruence.
      * by rewrite list_lookup_alter_ne.
  - split.
    + rewrite fmap_app. by apply prefix_app_r.
    + intros i r Hi _. rewrite lookup_app_l; [done|].
      by apply lookup_lt_Some in Hi.
Qed.

(** The attendance table holds one record at most for a member and a day,
    and no run of the script, on any page and with any input, breaks
    this. *)
Theorem one_record_per_member_and_day
    (DeepFace_verify : option image → option image → verify_result)
    (smtp : email → option string) (actions : list action) (w : world) :
  NoDup (att_key <$> rows (attendance_of w)) →
  NoDup (att_key <$>
           rows (attendance_of (session DeepFace_verify smtp actions w))).
Proof.
  intros Hw. induction actions as [|a actions IH] using rev_ind; [done|].
  rewrite session_snoc. destruct (is_reset a) eqn:Ha.
  - destruct a; try discriminate Ha.
    rewrite script_reset_attendance. apply NoDup_nil_2.
  - eapply attendance_step_keys; [|exact IH].
    by apply script_attendance_step.
Qed.

Lemma one_record_per_member_and_day_witness :
  NoDup (att_key <$> rows (attendance_of two_members))
  ∧ NoDup (att_key <$>
             rows (attendance_of
                     (session near_match mail_goes_out
                        [AttendanceEntry sample_now (Some "probe");
                         AttendanceExit sample_now (Some "probe");
                         AttendanceEntry sample_now (Some "probe")]
                        two_members))).
Proof.
  assert (Hw : NoDup (att_key <$> rows (attendance_of two_members))).
  { vm_compute. apply NoDup_singleton. }
  split; [exact Hw|].
  exact (one_record_per_member_and_day near_match mail_goes_out _
           two_members Hw).
Defined.

(** Apart from the reset, no run of the script removes a record of
    attendance, moves one, or changes who it is of, its date or its entry
    time; and a record that has its exit time is never written again. *)
Theorem attendance_records_stay
    (DeepFace_verify : option image → option image → verify_result)
    (smtp : email → option string) (actions : list action) (w : world) :
  Forall (λ a, is_reset a = false) actions →
  let old := rows (attendance_of w) in
  let new := rows (attendance_of (session DeepFace_verify smtp actions w)) in
  att_entry <$> old `prefix_of` att_entry <$> new
  ∧ ∀ i r, old !! i = Some r → no_exit r = false → new !! i = Some r.
Proof.
  intros Hactions. cbv zeta.
  induction actions as [|a actions IH] using rev_ind.
  - done.
  - apply Forall_app in Hactions as [Hactions Ha].
    apply (proj1 (Forall_singleton _ a)) in Ha.
    rewrite session_snoc. destruct (IH Hactions) as [IHprefix IHclosed].
    destruct (attendance_step_stays _ _
                (script_attendance_step DeepFace_verify smtp a
                   (session DeepFace_verify smtp actions w) Ha))
      as [Hprefix Hclosed].
    split.
    + by etrans.
    + eauto.
Qed.

Lemma attendance_records_stay_witness :
  let actions :=
    [AttendanceExit sample_now (Some "probe");
     DeleteMember "1";
     AttendanceExit sample_now (Some "probe")] in
  Forall (λ a, is_reset a = false) actions
  ∧ att_entry <$> rows (attendance_of two_members)
      `prefix_of`
      att_entry <$>
        rows (attendance_of
                (session near_match mail_goes_out actions two_members)).
Proof.
  intros actions.
  assert (Hactions : Forall (λ a, is_reset a = false) actions).
  { by repeat constructor. }
  split; [exact Hactions|].
  exact (proj1 (attendance_records_stay near_match mail_goes_out actions
                  two_members Hactions)).
Defined.

(** When the matched member has no record for today, [mark_entry] appends
    one record to the attendance table and changes no other: it has the
    ID and the name of the member, the date and the time of the call, no
    exit time, and the status "Present".  The members file, the archive
    and the photos stay as they were. *)
Theorem mark_entry_appends_record
    (DeepFace_verify : option image → option image → verify_result)
    (now : datetime) (img : image) (w : world) (matched_row : Member) :
  empty (members_of w) = false →
  fst (scan (candidates DeepFace_verify "temp_entry.jpg" (members_of w)
               (after (save_temp_entry img w)))) = Some matched_row →
  (∀ r, r ∈ rows (attendance_of w) →
        att_key r ≠ (str (ID matched_row), strftime_date now)) →
  let res := mark_entry DeepFace_verify now (Some img) w in
  shown res = [success ("Entry marked for " +:+ Name matched_row)]
  ∧ value res = inr tt
  ∧ rows (attendance_of (after res))
      = rows (attendance_of w)
          ++ [{| att_ID := str (ID matched_row);
                 att_Name := Name matched_row;
                 Date := strftime_date now; EntryTime := strftime_time now;
                 ExitTime := None; Status := "Present" |}]
  ∧ members_csv (after res) = members_csv w
  ∧ deleted_members_csv (after res) = deleted_members_csv w
  ∧ member_images (after res) = member_images w
  ∧ temp_entry_jpg (after res) = Some img.
Proof.
  intros Hmembers Hscan Hnew res. unfold res.
  rewrite mark_entry_eq, Hmembers, Hscan.
  destruct (entry_record_new now matched_row (after (save_temp_entry img w)))
    as (Hs & Hv & Hr & Hm & Hd & Hi & Ht & _).
  { exact Hnew. }
  split_and!; try done.
Qed.

Lemma mark_entry_appends_record_witness :
  let res := mark_entry near_match sample_now (Some "probe") one_member in
  shown res = [success "Entry marked for Asha"]
  ∧ rows (attendance_of (after res))
      = [{| att_ID := "1"; att_Name := "Asha"; Date := "2026-11-03";
            EntryTime := "09:05:00"; ExitTime := None;
            Status := "Present" |}].
Proof.
  intros res.
  destruct (mark_entry_appends_record near_match sample_now "probe"
              one_member Asha eq_refl eq_refl) as (Hshown & _ & Hrows & _).
  { intros r Hr. vm_compute in Hr. by apply not_elem_of_nil in Hr. }
  split; [exact Hshown|exact Hrows].
Defined.

(** The day of a member, on the two handlers of lines 190-209 and
    239-254.  With no record yet for the member and the day, an entry and
    then an exit on that day leave one record, closed at the time of the
    exit; while the member is inside a second entry is refused, and after
    the exit both a new entry and a new exit are refused, so that the
    record is not written again on that day. *)
Theorem attendance_day_cycle (t0 t1 t2 : datetime) (row : Member)
    (w : world) :
  (∀ r, r ∈ rows (attendance_of w) →
        att_key r ≠ (str (ID row), strftime_date t0)) →
  strftime_date t1 = strftime_date t0 →
  strftime_date t2 = strftime_date t0 →
  let w1 := after (entry_record t0 row w) in
  let w2 := after (exit_record t1 row w1) in
  entry_record t2 row w1
    = Out w1 [warning "Entry already marked today."] (inr tt)
  ∧ shown (exit_record t1 row w1) = [success ("Exit marked for " +:+ Name row)]
  ∧ rows (attendance_of w2)
      = rows (attendance_of w)
          ++ [close_record (strftime_time t1) (entry_row t0 row)]
  ∧ entry_record t2 row w2
      = Out w2 [warning "Entry already marked today."] (inr tt)
  ∧ exit_record t2 row w2
      = Out w2 [warning "No open entry found for today."] (inr tt).
Proof.
  intros Hnew Ht1 Ht2 w1 w2.
  destruct (entry_record_new t0 row w Hnew) as (_ & _ & Hrows1 & _).
  fold w1 in Hrows1.
  assert (Hopen : is_open (str (ID row)) (strftime_date t1)
                    (entry_row t0 row) = true).
  { apply is_open_true. rewrite Ht1. simpl. auto. }
  assert (Hold : ∀ t r, strftime_date t = strftime_date t0 →
    r ∈ rows (attendance_of w) →
    is_open (str (ID row)) (strftime_date t) r = false).
  { intros t r Ht Hr. apply not_true_is_false. intros Hr'.
    apply is_open_true in Hr' as (Hid & Hdate & _).
    apply (Hnew r Hr). unfold att_key. by rewrite Hid, Hdate, Ht. }
  destruct (exit_record_open t1 row w1 (length (rows (attendance_of w)))
              (entry_row t0 row)) as (Hshown & _ & Hrows2 & _).
  { rewrite Hrows1. by apply list_lookup_middle. }
  { exact Hopen. }
  { intros j r' Hlt Hj. rewrite Hrows1, lookup_app_l in Hj by done.
    apply (Hold t1); [done|]. by apply list_elem_of_lookup_2 in Hj. }
  fold w2 in Hrows2.
  assert (Hrows2' : rows (attendance_of w2)
    = rows (attendance_of w)
        ++ [close_record (strftime_time t1) (entry_row t0 row)]).
  { rewrite Hrows2, Hrows1.
    rewrite <- (Nat.add_0_r (length (rows (attendance_of w)))).
    by rewrite alter_app_r. }
  split_and!.
  - apply entry_record_blocked with (entry_row t0 row).
    + rewrite Hrows1. apply elem_of_app. right. apply list_elem_of_here.
    + unfold att_key. simpl. by rewrite Ht2.
  - exact Hshown.
  - exact Hrows2'.
  - apply entry_record_blocked
      with (close_record (strftime_time t1) (entry_row t0 row)).
    + rewrite Hrows2'. apply elem_of_app. right. apply list_elem_of_here.
    + unfold att_key. simpl. by rewrite Ht2.
  - apply exit_record_none. intros r Hr. rewrite Hrows2' in Hr.
    apply elem_of_app in Hr as [Hr|Hr].
    + by apply (Hold t2).
    + apply list_elem_of_singleton in Hr. subst r. unfold is_open.
      rewrite no_exit_close_record by apply strftime_time_filled.
      apply andb_false_r.
Qed.

Lemma attendance_day_cycle_witness :
  let w1 := after (entry_record sample_now Asha one_member) in
  let w2 := after (exit_record sample_evening Asha w1) in
  rows (attendance_of w2)
    = [{| att_ID := "1"; att_Name := "Asha"; Date := "2026-11-03";
          EntryTime := "09:05:00"; ExitTime := Some "18:40:12";
          Status := "Exited" |}]
  ∧ shown (exit_record sample_evening Asha w2)
    = [warning "No open entry found for today."].
Proof.
  intros w1 w2.
  destruct (attendance_day_cycle sample_now sample_evening sample_evening
              Asha one_member) as (_ & _ & Hrows & _ & Hexit).
  { intros r Hr. vm_compute in Hr. by apply not_elem_of_nil in Hr. }
  { reflexivity. }
  { reflexivity. }
  split; [exact Hrows|].
  exact (f_equal shown Hexit).
Defined.

Section Verifier.
Variable DeepFace_verify : option image → option image → verify_result.

Lemma candidates_not_verified img_path members w :
  (∀ ref, not_verified (DeepFace_verify (image_at img_path w) ref) = true) →
  scan (candidates DeepFace_verify img_path members w) = (None, 1%Q).
Proof.
  intros Hno. apply scan_nobody. intros j row d Hj.
  unfold candidates in Hj. rewrite list_lookup_fmap in Hj.
  destruct (rows members !! j) as [row'|]; [|done].
  simpl in Hj. injection Hj as _ Hv. unfold try_verify_faces in Hv.
  specialize (Hno (image_at (ImagePath row') w)).
  destruct (DeepFace_verify _ _) as [|verified distance]; [done|].
  simpl in Hno. injection Hv as -> _. done.
Qed.

Lemma entry_record_frame now row w :
  let res := entry_record now row w in
  value res = inr tt
  ∧ members_csv (after res) = members_csv w
  ∧ deleted_members_csv (after res) = deleted_members_csv w
  ∧ member_images (after res) = member_images w
  ∧ temp_entry_jpg (after res) = temp_entry_jpg w
  ∧ temp_exit_jpg (after res) = temp_exit_jpg w
  ∧ outbox (after res) = outbox w.
Proof. cbv zeta. rewrite entry_record_eq. cbv zeta. by destruct (negb _). Qed.

Lemma exit_record_frame now row w :
  let res := exit_record now row w in
  value res = inr tt
  ∧ members_csv (after res) = members_csv w
  ∧ deleted_members_csv (after res) = deleted_members_csv w
  ∧ member_images (after res) = member_images w
  ∧ temp_entry_jpg (after res) = temp_entry_jpg w
  ∧ temp_exit_jpg (after res) = temp_exit_jpg w
  ∧ outbox (after res) = outbox w.
Proof.
  cbv zeta. rewrite exit_record_eq. cbv zeta.
  by destruct (list_find _ _) as [[idx r]|].
Qed.

End Verifier.

(** A probe for which the verifier raises or answers "not verified",
    whatever the reference photo, identifies nobody: over a members table
    that is not empty, [mark_entry] and [mark_exit] end normally with "No
    matching member found." and change nothing but the file of the probe;
    an exception of the verifier never stops the page. *)
Theorem unverified_probe_finds_nobody
    (DeepFace_verify : option image → option image → verify_result)
    (now : datetime) (img : image) (w : world) :
  empty (members_of w) = false →
  (∀ ref, not_verified (DeepFace_verify (Some img) ref) = true) →
  mark_entry DeepFace_verify now (Some img) w
    = Out (after (save_temp_entry img w)) [error "No matching member found."]
        (inr tt)
  ∧ mark_exit DeepFace_verify now (Some img) w
    = Out (after (save_temp_exit img w)) [error "No matching member found."]
        (inr tt).
Proof.
  intros Hmembers Hno. split.
  - rewrite mark_entry_eq, Hmembers, candidates_not_verified; done.
  - rewrite mark_exit_eq, Hmembers, candidates_not_verified; done.
Qed.

Lemma unverified_probe_finds_nobody_witness :
  empty (members_of two_members) = false
  ∧ shown (mark_entry verifier_raises sample_now (Some "probe") two_members)
    = [error "No matching member found."]
  ∧ attendance_csv
      (after (mark_exit verifier_raises sample_now (Some "probe")
                two_members))
    = attendance_csv two_members.
Proof.
  assert (Hmembers : empty (members_of two_members) = false) by reflexivity.
  assert (Hno : ∀ ref, not_verified (verifier_raises (Some "probe") ref)
                       = true) by reflexivity.
  destruct (unverified_probe_finds_nobody verifier_raises sample_now "probe"
              two_members Hmembers Hno) as [Hentry Hexit].
  split_and!; [exact Hmembers| |].
  - exact (f_equal shown Hentry).
  - exact (f_equal (λ r, attendance_csv (after r)) Hexit).
Defined.

(** On a members table without rows, the attendance pages save the probe
    and show "No members registered.", the update and delete page shows
    "No members registered yet." whatever ID is handed to it, and the
    members page shows "No members found."; none of them writes a table
    file or raises. *)
Theorem pages_on_empty_members_table
    (DeepFace_verify : option image → option image → verify_result)
    (smtp : email → option string)
    (now : datetime) (img : image) (selected_id name email_ mobile : string)
    (membership : Membership) (fee : Z) (w : world) :
  rows (members_of w) = [] →
  mark_entry DeepFace_verify now (Some img) w
    = Out (after (save_temp_entry img w)) [warning "No members registered."]
        (inr tt)
  ∧ mark_exit DeepFace_verify now (Some img) w
    = Out (after (save_temp_exit img w)) [warning "No members registered."]
        (inr tt)
  ∧ update_member smtp selected_id name email_ mobile membership fee w
    = Out w [warning "No members registered yet."] (inr tt)
  ∧ delete_member smtp selected_id w
    = Out w [warning "No members registered yet."] (inr tt)
  ∧ view_members w = Out w [info "No members found."] (inr tt).
Proof.
  intros Hrows.
  assert (Hempty : empty (members_of w) = true).
  { unfold empty. by rewrite Hrows. }
  split_and!.
  - by rewrite mark_entry_eq, Hempty.
  - by rewrite mark_exit_eq, Hempty.
  - by rewrite update_member_eq, Hempty.
  - by rewrite delete_member_eq, Hempty.
  - unfold view_members. rewrite bind_eq, load_members_eq. simpl.
    by rewrite Hempty.
Qed.

Lemma pages_on_empty_members_table_witness :
  rows (members_of fresh) = []
  ∧ shown (mark_entry near_match sample_now (Some "probe") fresh)
    = [warning "No members registered."]
  ∧ delete_member mail_goes_out "1" fresh
    = Out fresh [warning "No members registered yet."] (inr tt).
Proof.
  assert (Hrows : rows (members_of fresh) = []) by reflexivity.
  destruct (pages_on_empty_members_table near_match mail_goes_out sample_now
              "probe" "1" "Asha" "asha@example.org" "9876543210" Monthly 500
              fresh Hrows) as (Hentry & _ & _ & Hdelete & _).
  split_and!; [exact Hrows|exact (f_equal shown Hentry)|exact Hdelete].
Defined.

(** The two attendance pages never raise and never write the members
    file, the archive, a photo of a member or a mail, whatever the probe
    and whatever the verifier answers. *)
Theorem attendance_pages_keep_registry
    (DeepFace_verify : option image → option image → verify_result)
    (now : datetime) (photo : option image) (w : world) :
  let entry := mark_entry DeepFace_verify now photo w in
  let exit_ := mark_exit DeepFace_verify now photo w in
  (value entry = inr tt
   ∧ members_csv (after entry) = members_csv w
   ∧ deleted_members_csv (after entry) = deleted_members_csv w
   ∧ member_images (after entry) = member_images w
   ∧ temp_exit_jpg (after entry) = temp_exit_jpg w
   ∧ outbox (after entry) = outbox w)
  ∧ (value exit_ = inr tt
     ∧ members_csv (after exit_) = members_csv w
     ∧ deleted_members_csv (after exit_) = deleted_members_csv w
     ∧ member_images (after exit_) = member_images w
     ∧ temp_entry_jpg (after exit_) = temp_entry_jpg w
     ∧ outbox (after exit_) = outbox w).
Proof.
  cbv zeta. destruct photo as [img|]; [|done]. split.
  - rewrite mark_entry_eq. cbv zeta.
    destruct (empty (members_of w)); [done|].
    destruct (scan _).1 as [row|]; [|done].
    by destruct (entry_record_frame now row (after (save_temp_entry img w)))
      as (? & ? & ? & ? & ? & ? & ?).
  - rewrite mark_exit_eq. cbv zeta.
    destruct (empty (members_of w)); [done|].
    destruct (scan _).1 as [row|]; [|done].
    by destruct (exit_record_frame now row (after (save_temp_exit img w)))
      as (? & ? & ? & ? & ? & ? & ?).
Qed.

(** ** The members pages *)

Section Members.
Variable DeepFace_verify : option image → option image → verify_result.
Variable smtp : email → option string.

Lemma selected_rows (members : DataFrame Member) k member :
  member ∈ rows members → ID member = k →
  ∃ first rest,
    rows (select (λ r, bool_decide (str (ID r) = str k)) members)
      = first :: rest.
Proof.
  intros Hin Hid. simpl.
  destruct (filter _ (rows members)) as [|first rest] eqn:E; [|eauto].
  assert (H : member ∈ filter
    (λ r, bool_decide (str (ID r) = str k) = true) (rows members)).
  { apply list_elem_of_filter. split; [|done].
    apply bool_decide_eq_true. by rewrite Hid. }
  rewrite E in H. by apply not_elem_of_nil in H.
Qed.

Lemma not_empty_elem (members : DataFrame Member) member :
  columns members ≠ [] → member ∈ rows members → empty members = false.
Proof.
  intros Hc Hin. rewrite empty_rows by done. apply bool_decide_eq_false.
  intros Hnil. rewrite Hnil in Hin. by apply not_elem_of_nil in Hin.
Qed.

Lemma mail_then_success_frame to_ subject_ body_ text w :
  let r := mail_then_success smtp to_ subject_ body_ text w in
  same_files w (after r) ∧ value r = inr tt
  ∧ (∃ errors : list msg, shown r = errors ++ [success text])
  ∧ (outbox (after r) = outbox w
     ∨ outbox (after r)
         = outbox w ++ [{| to := to_; subject := subject_; body := body_ |}]).
Proof.
  unfold mail_then_success, send_email. rewrite bind_eq.
  destruct (smtp _) as [e|]; simpl.
  - split_and!; [done..| |by left]. by exists [error ("Email Error: " +:+ e)].
  - split_and!; [done..| |by right]. by exists [].
Qed.

Lemma update_member_found k name email_ mobile membership fee w member :
  member ∈ rows (members_of w) → ID member = k →
  ∃ first rest,
    rows (select (λ r, bool_decide (str (ID r) = str k)) (members_of w))
      = first :: rest
    ∧ update_member smtp (str k) name email_ mobile membership fee w
      = mail_then_success smtp email_ "Gym Details Updated"
          (update_body name membership fee) "Member updated successfully."
          (after (save_members
                    {| columns := columns (members_of w);
                       rows := update_row k name email_ mobile membership fee
                                 <$> rows (members_of w) |} w)).
Proof.
  intros Hin Hid.
  destruct (selected_rows (members_of w) k member Hin Hid)
    as (first & rest & Hsel).
  exists first, rest. split; [done|].
  rewrite update_member_eq. cbv zeta.
  rewrite (not_empty_elem _ member) by (apply columns_members_of || done).
  by rewrite Hsel, int_str.
Qed.

Lemma delete_member_found k w member :
  member ∈ rows (members_of w) → ID member = k →
  ∃ first rest,
    rows (select (λ r, bool_decide (str (ID r) = str k)) (members_of w))
      = first :: rest
    ∧ delete_member smtp (str k) w
      = let deleted := select (has_ID k) (members_of w) in
        let w1 :=
          after (save_members
                   (select (λ r, negb (has_ID k r)) (members_of w)) w) in
        let finish :=
          mail_then_success smtp (Email first) "Gym Membership Deleted"
            (deletion_body (Name first) (str k))
            "Member deleted successfully." in
        match read_csv (deleted_members_csv w) with
        | inl e => Out w1 [] (inl e)
        | inr archive =>
            finish (after (write_deleted_members_csv
                             (to_csv (concat archive deleted)) w1))
        end.
Proof.
  intros Hin Hid.
  destruct (selected_rows (members_of w) k member Hin Hid)
    as (first & rest & Hsel).
  exists first, rest. split; [done|].
  rewrite delete_member_eq. cbv zeta.
  rewrite (not_empty_elem _ member) by (apply columns_members_of || done).
  rewrite Hsel, int_str.
  assert (Hdeleted : empty (select (has_ID k) (members_of w)) = false).
  { apply (not_empty_elem _ member); [apply columns_members_of|].
    simpl. apply list_elem_of_filter. split; [|done].
    by apply bool_decide_eq_true. }
  by rewrite Hdeleted.
Qed.

End Members.

(** The members file behind a table that is loaded with rows. *)
Lemma members_csv_of_rows (w : world) (l : list Member) :
  rows (members_of w) = l →
  l ≠ [] →
  ∃ header, members_csv w = table header l.
Proof.
  unfold members_of. intros Hr Hl.
  destruct (members_csv w) as [| |[|c cs] body]; simpl in Hr; subst l;
    try done.
  by exists (c :: cs).
Qed.



(** An update for the ID of a member of the table writes the members file
    again: a row of the table with this ID is written with the five
    fields of the form, its ID and its photo path; every other row of the
    table is written as it was loaded; the number and the order of the
    rows, the attendance table with the names it holds, the archive and
    the photos stay as they were. *)
Theorem update_member_rewrites_fields
    (smtp : email → option string) (k : Z)
    (name email_ mobile : string) (membership : Membership) (fee : Z)
    (w : world) (member : Member) :
  member ∈ rows (members_of w) →
  ID member = k →
  let res := update_member smtp (str k) name email_ mobile membership fee w in
  let written := file_rows (members_csv (after res)) in
  value res = inr tt
  ∧ (∃ errors : list msg,
        shown res = errors ++ [success "Member updated successfully."])
  ∧ (∃ header, members_csv (after res) = table header written)
  ∧ length written = length (rows (members_of w))
  ∧ (∀ i r, rows (members_of w) !! i = Some r → ID r ≠ k →
        written !! i = Some r)
  ∧ (∀ i r, rows (members_of w) !! i = Some r → ID r = k →
        written !! i
          = Some {| ID := k; Name := name; Email := email_; Mobile := mobile;
                    Membership_ := membership; Fee := fee;
                    ImagePath := ImagePath r |})
  ∧ attendance_csv (after res) = attendance_csv w
  ∧ deleted_members_csv (after res) = deleted_members_csv w
  ∧ member_images (after res) = member_images w.
Proof.
  intros Hin Hid res written.
  destruct (update_member_found smtp k name email_ mobile membership fee w
              member Hin Hid) as (first & rest & _ & Heq).
  assert (Hfile : ∃ header,
    members_csv (after res)
      = table header
          (update_row k name email_ mobile membership fee
             <$> rows (members_of w))).
  { apply members_csv_of_rows.
    - unfold res. rewrite Heq.
      match goal with
      | |- context [mail_then_success ?s ?t ?sub ?b ?txt ?w1] =>
          destruct (mail_then_success_frame s t sub b txt w1)
            as ((Hm & _) & _)
      end.
      by rewrite (members_of_same_file _ _ Hm), members_of_save_members
        by apply columns_members_of.
    - intros Hnil. apply fmap_nil_inv in Hnil. rewrite Hnil in Hin.
      by apply elem_of_nil in Hin. }
  destruct Hfile as [header Hfile].
  unfold written. rewrite Hfile. cbn [file_rows].
  unfold res. rewrite Heq.
  match goal with
  | |- context [mail_then_success ?s ?t ?sub ?b ?txt ?w1] =>
      destruct (mail_then_success_frame s t sub b txt w1)
        as ((Hm & Ha & Hd & Hi & _) & Hv & Hs & _)
  end.
  split_and!; [done|done|by exists header| | | |by rewrite Ha|by rewrite Hd
              |by rewrite Hi].
  - by rewrite length_fmap.
  - intros i r Hi' Hne. rewrite list_lookup_fmap, Hi'. simpl.
    unfold update_row, has_ID. by rewrite bool_decide_eq_false_2.
  - intros i r Hi' Heq'. rewrite list_lookup_fmap, Hi'. simpl.
    unfold update_row, has_ID. rewrite bool_decide_eq_true_2 by done.
    by rewrite Heq'.
Qed.

Lemma update_member_rewrites_fields_witness :
  let res :=
    update_member mail_goes_out "2" "Bela Rao" "bela@example.org"
      "9876500001" Monthly 450 two_members in
  file_rows (members_csv (after res))
    = [Asha;
       {| ID := 2; Name := "Bela Rao"; Email := "bela@example.org";
          Mobile := "9876500001"; Membership_ := Monthly; Fee := 450;
          ImagePath := "member_images/2_Bela.jpg" |}]
  ∧ attendance_csv (after res) = attendance_csv two_members.
Proof.
  intros res.
  assert (Hin : Bela ∈ rows (members_of two_members)).
  { vm_compute. apply list_elem_of_further, list_elem_of_here. }
  destruct (update_member_rewrites_fields mail_goes_out 2 "Bela Rao"
              "bela@example.org" "9876500001" Monthly 450 two_members Bela
              Hin eq_refl) as (_ & _ & _ & _ & _ & _ & Ha & _).
  split; [reflexivity|exact Ha].
Defined.

(** A delete for the ID of a member of the table takes every row with
    this ID out of the members table, two rows when two members share the
    ID, and keeps the other rows in their order; the photos stay.  When
    the archive file can be read, these rows are appended to it after the
    records it had and the run ends normally; when it cannot, the run ends
    with the exception of the read after the members table was saved, with
    no record archived, no mail and no message. *)
Theorem delete_member_removes_rows_with_id
    (smtp : email → option string) (k : Z) (w : world) (member : Member) :
  member ∈ rows (members_of w) →
  ID member = k →
  let res := delete_member smtp (str k) w in
  rows (members_of (after res))
    = filter (λ r, ID r ≠ k) (rows (members_of w))
  ∧ member_images (after res) = member_images w
  ∧ match read_csv (deleted_members_csv w) with
    | inr archive =>
        value res = inr tt
        ∧ (∃ errors : list msg,
              shown res = errors ++ [success "Member deleted successfully."])
        ∧ ∃ header,
            deleted_members_csv (after res)
              = table header
                  (rows archive
                     ++ filter (λ r, ID r = k) (rows (members_of w)))
    | inl e =>
        value res = inl e
        ∧ shown res = []
        ∧ deleted_members_csv (after res) = deleted_members_csv w
        ∧ outbox (after res) = outbox w
    end.
Proof.
  intros Hin Hid res.
  destruct (delete_member_found smtp k w member Hin Hid)
    as (first & rest & _ & Heq).
  unfold res. rewrite Heq. cbv zeta. clear Heq.
  set (w1 := after (save_members
                      (select (λ r, negb (has_ID k r)) (members_of w)) w)).
  assert (Hlive : rows (members_of w1)
                  = filter (λ r, ID r ≠ k) (rows (members_of w))).
  { unfold w1. rewrite members_of_save_members by apply columns_members_of.
    simpl. apply list_filter_iff. intros r. unfold has_ID.
    rewrite negb_true_iff, bool_decide_eq_false. done. }
  assert (Hgone : filter (λ r, has_ID k r = true) (rows (members_of w))
                  = filter (λ r, ID r = k) (rows (members_of w))).
  { apply list_filter_iff. intros r. unfold has_ID.
    by rewrite bool_decide_eq_true. }
  destruct (read_csv (deleted_members_csv w)) as [e|archive] eqn:Hread.
  - by split_and!.
  - match goal with
    | |- context [mail_then_success ?s ?t ?sub ?b ?txt ?w2] =>
        destruct (mail_then_success_frame s t sub b txt w2)
          as ((Hm & _ & Hd & Hi & _) & Hv & Hs & _)
    end.
    rewrite (members_of_same_file _ _ Hm), Hi, Hd.
    split_and!; [done|done|done|done|].
    assert (Hc : columns archive ≠ []).
    { destruct (deleted_members_csv w) as [| |[|c cs] body];
        simplify_eq/=; done. }
    cbn [after write_deleted_members_csv deleted_members_csv].
    rewrite to_csv_table.
    + cbn [rows concat select]. rewrite Hgone. eauto.
    + cbn [columns concat]. by destruct (columns archive).
Qed.

Lemma delete_member_removes_rows_with_id_witness :
  let res := delete_member mail_goes_out "1" two_members in
  rows (members_of (after res)) = [Bela]
  ∧ deleted_members_csv (after res) = table members_columns [Asha]
  ∧ value res = inr tt.
Proof.
  intros res.
  assert (Hin : Asha ∈ rows (members_of two_members)).
  { vm_compute. apply list_elem_of_here. }
  destruct (delete_member_removes_rows_with_id mail_goes_out 1 two_members
              Asha Hin eq_refl) as (Hrows & _ & Hvalue & _).
  split_and!; [exact Hrows|reflexivity|exact Hvalue].
Defined.

(** On a machine where the script started from nothing, whatever was done
    on its pages since, the delete of a member of the table never
    completes: the member leaves the table and the run ends with the
    [EmptyDataError] of the read of the archive file, which still has
    neither column line nor record. *)
Theorem delete_never_completes_after_fresh_install
    (DeepFace_verify : option image → option image → verify_result)
    (smtp : email → option string) (actions : list action) (k : Z)
    (member : Member) :
  let w := session DeepFace_verify smtp actions fresh in
  member ∈ rows (members_of w) →
  ID member = k →
  let res := script DeepFace_verify smtp (DeleteMember (str k)) w in
  value res = inl EmptyDataError
  ∧ shown res = []
  ∧ rows (members_of (after res)) = filter (λ r, ID r ≠ k) (rows (members_of w))
  ∧ deleted_members_csv (after res) = no_header.
Proof.
  intros w Hin Hid res.
  set (w0 := after (setup w)).
  assert (Harchive : deleted_members_csv w0 = no_header).
  { unfold w0. rewrite setup_eq. cbn [after deleted_members_csv].
    destruct actions as [|a actions'] eqn:Hactions; [done|].
    unfold w. by rewrite archive_never_written. }
  assert (Hmembers : members_of w0 = members_of w)
    by apply members_of_setup.
  rewrite <- Hmembers in Hin.
  destruct (delete_member_removes_rows_with_id smtp k w0 member Hin Hid)
    as (Hrows & _ & Hread).
  rewrite Harchive in Hread. simpl in Hread.
  destruct Hread as (Hv & Hs & Hd & _).
  unfold res. rewrite script_eq. cbn [page]. fold w0.
  rewrite <- Hmembers. by split_and!.
Qed.

Lemma delete_never_completes_after_fresh_install_witness :
  let w :=
    session near_match mail_goes_out
      (register_action <$> sample_registrations) fresh in
  ID <$> rows (members_of w) = [1; 2]
  ∧ value (script near_match mail_goes_out (DeleteMember "2") w)
    = inl EmptyDataError.
Proof.
  intros w. split; [reflexivity|].
  assert (Hin : new_member 2 "Chand Rao" "chand@example.org" "9876511111"
                  Quarterly 0 (member_image_path 2 "Chand Rao")
                ∈ rows (members_of w)).
  { vm_compute. apply list_elem_of_further, list_elem_of_here. }
  exact (proj1 (delete_never_completes_after_fresh_install near_match
                  mail_goes_out (register_action <$> sample_registrations)
                  2 _ Hin eq_refl)).
Defined.



(** ** Photos, and the reset *)







Section Photos.
Variable DeepFace_verify : option image → option image → verify_result.
Variable smtp : email → option string.

Lemma mail_then_success_images to_ subject_ body_ text w :
  member_images (after (mail_then_success smtp to_ subject_ body_ text w))
    = member_images w.
Proof.
  by destruct (mail_then_success_spec smtp to_ subject_ body_ text w)
    as ((_ & _ & _ & H & _) & _).
Qed.

Lemma page_member_images a w :
  is_reset a = false →
  member_images (after (page DeepFace_verify smtp a w)) = member_images w
  ∨ ∃ path img,
      member_images (after (page DeepFace_verify smtp a w))
        = <[path := img]> (member_images w).
Proof.
  intros Ha. destruct a; cbn [page]; try discriminate Ha.
  - by destruct (register_member_frame smtp name email_ mobile membership fee
                   photo w) as (_ & _ & Hi & _).
  - left. rewrite update_member_eq. cbv zeta.
    destruct (empty (members_of w)); [done|].
    destruct (rows (select _ (members_of w))) as [|member rest]; [done|].
    destruct (int selected_id) as [k|]; [|done].
    by rewrite mail_then_success_images.
  - left. rewrite delete_member_eq. cbv zeta.
    destruct (empty (members_of w)); [done|].
    destruct (rows (select _ (members_of w))) as [|member rest]; [done|].
    destruct (int selected_id) as [k|]; [|done].
    destruct (negb _).
    + destruct (read_csv (deleted_members_csv w)) as [e|archive]; [done|].
      by rewrite mail_then_success_images.
    + by rewrite mail_then_success_images.
  - left. destruct photo as [img|]; [|done].
    rewrite mark_entry_eq. cbv zeta.
    destruct (empty (members_of w)); [done|].
    destruct (scan _).1 as [row|]; [|done].
    by destruct (entry_record_frame now row (after (save_temp_entry img w)))
      as (_ & _ & _ & -> & _).
  - left. destruct photo as [img|]; [|done].
    rewrite mark_exit_eq. cbv zeta.
    destruct (empty (members_of w)); [done|].
    destruct (scan _).1 as [row|]; [|done].
    by destruct (exit_record_frame now row (after (save_temp_exit img w)))
      as (_ & _ & _ & -> & _).
  - left. unfold view_members. rewrite bind_eq, load_members_eq. simpl.
    by destruct (empty (members_of w)).
  - left. unfold view_attendance. rewrite bind_eq, load_attendance_eq. simpl.
    by destruct (empty (attendance_of w)).
Qed.

Lemma script_member_images a w :
  is_reset a = false →
  dom (member_images w)
    ⊆ dom (member_images (after (script DeepFace_verify smtp a w))).
Proof.
  intros Ha. rewrite script_eq.
  destruct (page_member_images a (after (setup w)) Ha)
    as [->|(path & img & ->)].
  - done.
  - rewrite setup_eq. cbn [after member_images]. apply dom_insert_subseteq.
Qed.

End Photos.

(** Apart from the reset, no run of the script removes a photo from
    [member_images/]: not the delete of the member, not an update; a file
    that is there stays there. *)
Theorem photos_stay
    (DeepFace_verify : option image → option image → verify_result)
    (smtp : email → option string) (actions : list action) (w : world) :
  Forall (λ a, is_reset a = false) actions →
  dom (member_images w)
    ⊆ dom (member_images (session DeepFace_verify smtp actions w)).
Proof.
  intros Hactions. induction actions as [|a actions IH] using rev_ind.
  - done.
  - apply Forall_app in Hactions as [Hactions Ha].
    apply (proj1 (Forall_singleton _ a)) in Ha.
    rewrite session_snoc. etrans; [by apply IH|].
    by apply script_member_images.
Qed.

Lemma photos_stay_witness :
  let actions :=
    [DeleteMember "1";
     UpdateMember "2" "Bela Rao" "bela@example.org" "9876500001" Monthly 450]
  in
  Forall (λ a, is_reset a = false) actions
  ∧ ImagePath Asha
      ∈ dom (member_images
               (session near_match mail_goes_out actions two_members)).
Proof.
  intros actions.
  assert (Hactions : Forall (λ a, is_reset a = false) actions).
  { by repeat constructor. }
  split; [exact Hactions|].
  apply (photos_stay near_match mail_goes_out actions two_members Hactions).
  apply elem_of_dom. by eexists.
Defined.

(** ** The columns of the tables *)

Section Columns.
Variable DeepFace_verify : option image → option image → verify_result.
Variable smtp : email → option string.

Lemma columns_members_of_same w w' :
  members_csv w' = members_csv w →
  columns (members_of w') = columns (members_of w).
Proof. intros H. by rewrite (members_of_same_file _ _ H). Qed.

Lemma page_members_columns a w :
  columns (members_of w) = members_columns →
  columns (members_of (after (page DeepFace_verify smtp a w)))
    = members_columns.
Proof.
  intros Hw. destruct a; cbn [page].
  - destruct (register_member_frame smtp name email_ mobile membership fee
                photo w) as (_ & _ & _ & Hc).
    by apply Hc.
  - rewrite update_member_eq. cbv zeta.
    destruct (empty (members_of w)); [done|].
    destruct (rows (select _ (members_of w))) as [|member rest]; [done|].
    destruct (int selected_id) as [k|]; [|done].
    match goal with
    | |- context [mail_then_success ?s ?t ?sub ?b ?txt ?w1] =>
        destruct (mail_then_success_spec s t sub b txt w1)
          as ((Hm & _) & _)
    end.
    rewrite (columns_members_of_same _ _ Hm), members_of_save_members.
    + done.
    + simpl. by rewrite Hw.
  - rewrite delete_member_eq. cbv zeta.
    destruct (empty (members_of w)); [done|].
    destruct (rows (select _ (members_of w))) as [|member rest]; [done|].
    destruct (int selected_id) as [k|]; [|done].
    assert (Hsaved : ∀ w1,
      members_csv w1
        = members_csv
            (after (save_members
                      (select (λ r, negb (has_ID k r)) (members_of w)) w)) →
      columns (members_of w1) = members_columns).
    { intros w1 H1. rewrite (columns_members_of_same _ _ H1).
      rewrite members_of_save_members; [done|]. simpl. by rewrite Hw. }
    destruct (negb _).
    + destruct (read_csv (deleted_members_csv w)) as [e|archive].
      * by apply Hsaved.
      * match goal with
        | |- context [mail_then_success ?s ?t ?sub ?b ?txt ?w1] =>
            destruct (mail_then_success_spec s t sub b txt w1)
              as ((Hm & _) & _)
        end.
        apply Hsaved. by rewrite Hm.
    + match goal with
      | |- context [mail_then_success ?s ?t ?sub ?b ?txt ?w1] =>
          destruct (mail_then_success_spec s t sub b txt w1)
            as ((Hm & _) & _)
      end.
      by apply Hsaved.
  - destruct photo as [img|]; [|done].
    rewrite mark_entry_eq. cbv zeta.
    destruct (empty (members_of w)); [done|].
    destruct (scan _).1 as [row|]; [|done].
    destruct (entry_record_frame now row (after (save_temp_entry img w)))
      as (_ & Hm & _).
    by rewrite (columns_members_of_same _ _ Hm).
  - destruct photo as [img|]; [|done].
    rewrite mark_exit_eq. cbv zeta.
    destruct (empty (members_of w)); [done|].
    destruct (scan _).1 as [row|]; [|done].
    destruct (exit_record_frame now row (after (save_temp_exit img w)))
      as (_ & Hm & _).
    by rewrite (columns_members_of_same _ _ Hm).
  - unfold view_members. rewrite bind_eq, load_members_eq. simpl.
    by destruct (empty (members_of w)).
  - unfold view_attendance. rewrite bind_eq, load_attendance_eq. simpl.
    by destruct (empty (attendance_of w)).
  - done.
Qed.

Lemma page_attendance_columns a w :
  columns (attendance_of w) = attendance_columns →
  columns (attendance_of (after (page DeepFace_verify smtp a w)))
    = attendance_columns.
Proof.
  intros Hw. destruct a; cbn [page].
  - by rewrite (attendance_of_same_file w (after _))
      by apply register_member_attendance.
  - by rewrite (attendance_of_same_file w (after _))
      by apply update_member_attendance.
  - by rewrite (attendance_of_same_file w (after _))
      by apply delete_member_attendance.
  - destruct photo as [img|]; [|done].
    rewrite mark_entry_eq. cbv zeta.
    destruct (empty (members_of w)); [done|].
    destruct (scan _).1 as [row|]; [|done].
    rewrite entry_record_eq. cbv zeta.
    change (attendance_of (after (save_temp_entry img w)))
      with (attendance_of w).
    destruct (negb _); [done|]. cbn [after].
    rewrite attendance_of_save_attendance.
    + cbn [columns concat]. by rewrite Hw.
    + cbn [columns concat]. by rewrite Hw.
  - destruct photo as [img|]; [|done].
    rewrite mark_exit_eq. cbv zeta.
    destruct (empty (members_of w)); [done|].
    destruct (scan _).1 as [row|]; [|done].
    rewrite exit_record_eq. cbv zeta.
    change (attendance_of (after (save_temp_exit img w)))
      with (attendance_of w).
    destruct (list_find _ _) as [[idx r]|]; [|done]. cbn [after].
    rewrite attendance_of_save_attendance.
    + done.
    + cbn [columns]. by rewrite Hw.
  - unfold view_members. rewrite bind_eq, load_members_eq. simpl.
    by destruct (empty (members_of w)).
  - unfold view_attendance. rewrite bind_eq, load_attendance_eq. simpl.
    by destruct (empty (attendance_of w)).
  - done.
Qed.

End Columns.

(** Tables that load with the columns the script names keep them through
    every run of the script, on any page and with any input, the reset
    included; from a machine where the script never ran they always load
    with these columns. *)
Theorem tables_keep_their_columns
    (DeepFace_verify : option image → option image → verify_result)
    (smtp : email → option string) (actions : list action) (w : world) :
  columns (members_of w) = members_columns →
  columns (attendance_of w) = attendance_columns →
  let w' := session DeepFace_verify smtp actions w in
  columns (members_of w') = members_columns
  ∧ columns (attendance_of w') = attendance_columns.
Proof.
  intros Hm Ha. cbv zeta.
  induction actions as [|a actions [IHm IHa]] using rev_ind; [done|].
  rewrite session_snoc, script_eq. split.
  - apply page_members_columns. by rewrite members_of_setup.
  - apply page_attendance_columns. by rewrite attendance_of_setup.
Qed.

Lemma tables_keep_their_columns_witness :
  columns (members_of fresh) = members_columns
  ∧ columns (attendance_of fresh) = attendance_columns
  ∧ columns (members_of
               (session near_match mail_goes_out
                  (register_action <$> sample_registrations) fresh))
    = members_columns.
Proof.
  assert (Hm : columns (members_of fresh) = members_columns) by reflexivity.
  assert (Ha : columns (attendance_of fresh) = attendance_columns)
    by reflexivity.
  split_and!; [exact Hm|exact Ha|].
  exact (proj1 (tables_keep_their_columns near_match mail_goes_out
                  (register_action <$> sample_registrations) fresh Hm Ha)).
Defined.
